(** * The SMILES-VAE generation driver ([dmg/smiles_vae/generate.py])

    A shallow embedding of [generate] and of the Python, pandas and csv
    operations it performs itself, over an interface of the collaborators it
    calls (configuration, checkpoint loading, the network, the latent
    optimiser, the decoder, the chemistry parser and the property scorer). *)

From Stdlib Require Import ZArith QArith Ascii.
From stdpp Require Import gmap strings list fin_maps.

Local Open Scope Z_scope.

(** ** Python values found in a metadata checkpoint *)

(** Hashable plain values, the keys of a dict. *)
Inductive Key :=
| KNone
| KInt (z : Z)
| KStr (s : string).

#[global] Instance Key_eq_dec : EqDecision Key.
Proof. solve_decision. Defined.

Definition Key_to_sum (k : Key) : unit + (Z + string) :=
  match k with
  | KNone => inl tt
  | KInt z => inr (inl z)
  | KStr s => inr (inr s)
  end.

Definition Key_of_sum (x : unit + (Z + string)) : Key :=
  match x with
  | inl _ => KNone
  | inr (inl z) => KInt z
  | inr (inr s) => KStr s
  end.

#[global] Instance Key_countable : Countable Key.
Proof.
  apply (inj_countable' Key_to_sum Key_of_sum).
  intros []; reflexivity.
Defined.

(** What [torch.load(..., weights_only=True)] can return: plain data, and
    objects (tensors and the like) that the driver never looks into. *)
#[warnings="-register-all"]
Inductive PyVal (O : Type) :=
| PNone
| PInt (z : Z)
| PStr (s : string)
| PList (l : list (PyVal O))
| PDict (d : gmap Key (PyVal O))
| PObj (o : O).

Arguments PNone {O}.
Arguments PInt {O} z.
Arguments PStr {O} s.
Arguments PList {O} l.
Arguments PDict {O} d.
Arguments PObj {O} o.

(** ** Exceptions and results *)

Inductive Exn (O : Type) :=
| KeyError (k : PyVal O)
| TypeError (msg : string)
| IndexError (msg : string)
| ValueError (msg : string)
| OtherError (cls msg : string).

Arguments KeyError {O} k.
Arguments TypeError {O} msg.
Arguments IndexError {O} msg.
Arguments ValueError {O} msg.
Arguments OtherError {O} cls msg.

Inductive Result (E A : Type) :=
| Ok (a : A)
| Raise (e : E).

Arguments Ok {E A} a.
Arguments Raise {E A} e.

Definition is_ok {E A} (r : Result E A) : bool :=
  match r with Ok _ => true | Raise _ => false end.

Definition exn_of {E A} (r : Result E A) : option E :=
  match r with Ok _ => None | Raise e => Some e end.

(** ** The run configuration object ([Config()]) *)

Record Config (D : Type) := mkConfig {
  embed_size : Z;
  latent_dim : Z;
  device : D
}.

Arguments mkConfig {D} _ _ _.
Arguments embed_size {D} _.
Arguments latent_dim {D} _.
Arguments device {D} _.

(** ** The collaborators

    Everything [generate] imports and calls.  [Ext] is the state they share
    behind the driver's back: the random generator, the storage of tensors
    and network weights, the checkpoint files.  A call takes that state and
    returns a value or raises.  A [Tensor] or a [Model] is a handle into
    that state, so that a call may change what a handle stands for.  The
    chemistry parser and the property scorer are functions of the string. *)

Class Env := {
  Obj : Type;
  Ext : Type;
  Device : Type;
  Model : Type;
  Tensor : Type;
  TVal : Type;
  Mol : Type;
  Score : Type;
  (* the special methods of an opaque loaded object *)
  obj_getitem : Obj -> PyVal Obj -> Result (Exn Obj) (PyVal Obj);
  obj_len : Obj -> Result (Exn Obj) Z;
  obj_sub : Obj -> Z -> Result (Exn Obj) (PyVal Obj);
  (* an opaque object used as a dict key: the plain key it is equal to
     (1.0 and True are 1), none, or the TypeError of an unhashable object *)
  obj_key : Obj -> Result (Exn Obj) (option Key);
  (* an opaque object used as a sequence index: the int it stands for when
     it has one (True is 1), none otherwise (1.0 has none) *)
  obj_index : Obj -> option Z;
  (* utils.config.Config() *)
  Config_new : Ext -> Result (Exn Obj) (Config Device) * Ext;
  (* torch.load(path, weights_only=True) *)
  torch_load : string -> Ext -> Result (Exn Obj) (PyVal Obj) * Ext;
  (* models.vae.VAE(vocab_size, embed_size, latent_dim, max_length, pad_idx) *)
  VAE_new : Z -> Z -> Z -> PyVal Obj -> PyVal Obj -> Ext -> Result (Exn Obj) Model * Ext;
  (* module.to(device) *)
  module_to : Model -> Device -> Ext -> Result (Exn Obj) Model * Ext;
  (* module.load_state_dict(state) *)
  load_state_dict : Model -> PyVal Obj -> Ext -> Result (Exn Obj) unit * Ext;
  (* torch.randn(rows, cols) *)
  torch_randn : Z -> Z -> Ext -> Result (Exn Obj) Tensor * Ext;
  (* tensor.to(device) *)
  tensor_to : Tensor -> Device -> Ext -> Result (Exn Obj) Tensor * Ext;
  (* utils.optimization.optimize_latent_vector(model, z, num_steps, lr) *)
  optimize_latent_vector :
    Model -> Tensor -> Z -> Q -> Ext -> Result (Exn Obj) Tensor * Ext;
  (* utils.optimization.decode_latent_vector_sample(model, z, char_to_idx,
     idx_to_char, start_token, end_token, device) *)
  decode_latent_vector_sample :
    Model -> Tensor -> PyVal Obj -> PyVal Obj -> PyVal Obj -> PyVal Obj -> Device ->
    Ext -> Result (Exn Obj) string * Ext;
  (* rdkit.Chem.MolFromSmiles(smiles): a molecule, or None *)
  MolFromSmiles : string -> option Mol;
  (* utils.compute_properties.compute_property(smiles) *)
  compute_property : string -> Result (Exn Obj) Score;
  (* how pandas prints a cell of the QED column; it settles on one type for
     the whole column first, so the text depends on the column *)
  render_score : list Score -> Score -> string;
  (* the error, if any, of opening a path for writing *)
  open_for_write : string -> Ext -> option (Exn Obj);
  (* the numbers a tensor handle currently stands for *)
  peek : Ext -> Tensor -> TVal
}.

(** ** The Python operations the driver applies to loaded values *)

Section Python.
Context {E : Env}.

Abbreviation Val := (PyVal Obj).
Abbreviation Err := (Exn Obj).
Abbreviation Res := (Result Err).

(** [seq[i]] on a str or a list: negative indices count from the end. *)
Definition norm_index (i : Z) (len : nat) : option nat :=
  let j := if i <? 0 then i + Z.of_nat len else i in
  if (0 <=? j) && (j <? Z.of_nat len) then Some (Z.to_nat j) else None.

(** A str is a sequence of code points; the strings here are their UTF-8
    bytes, where a code point is a lead byte and the continuation bytes
    (10xxxxxx) after it. *)
Definition is_continuation (c : ascii) : bool :=
  let n := nat_of_ascii c in Nat.leb 128 n && Nat.ltb n 192.

Fixpoint code_points (s : string) : list string :=
  match s with
  | EmptyString => []
  | String c rest =>
      match rest with
      | String c' _ =>
          if is_continuation c' then
            match code_points rest with
            | g :: gs => String c g :: gs
            | [] => [String c EmptyString]
            end
          else String c EmptyString :: code_points rest
      | EmptyString => [String c EmptyString]
      end
  end.

(** [container[key]] *)
Definition py_getitem (c k : Val) : Res Val :=
  match c with
  | PDict d =>
      let look (key : Key) :=
        match d !! key with
        | Some v => Ok v
        | None => Raise (KeyError k)
        end in
      match k with
      | PNone => look KNone
      | PInt z => look (KInt z)
      | PStr s => look (KStr s)
      | PList _ | PDict _ => Raise (TypeError "unhashable type")
      | PObj o =>
          match obj_key o with
          | Ok (Some key) => look key
          | Ok None => Raise (KeyError k)
          | Raise e => Raise e
          end
      end
  | PList l =>
      let item (i : Z) :=
        match norm_index i (length l) with
        | Some n =>
            match l !! n with
            | Some v => Ok v
            | None => Raise (IndexError "list index out of range")
            end
        | None => Raise (IndexError "list index out of range")
        end in
      match k with
      | PInt i => item i
      | PObj o =>
          match obj_index o with
          | Some i => item i
          | None => Raise (TypeError "list indices must be integers or slices")
          end
      | _ => Raise (TypeError "list indices must be integers or slices")
      end
  | PStr s =>
      let item (i : Z) :=
        match norm_index i (length (code_points s)) with
        | Some n =>
            match code_points s !! n with
            | Some ch => Ok (PStr ch)
            | None => Raise (IndexError "string index out of range")
            end
        | None => Raise (IndexError "string index out of range")
        end in
      match k with
      | PInt i => item i
      | PObj o =>
          match obj_index o with
          | Some i => item i
          | None => Raise (TypeError "string indices must be integers")
          end
      | _ => Raise (TypeError "string indices must be integers")
      end
  | PObj o => obj_getitem o k
  | PNone | PInt _ => Raise (TypeError "object is not subscriptable")
  end.

(** [len(v)] *)
Definition py_len (v : Val) : Res Z :=
  match v with
  | PStr s => Ok (Z.of_nat (length (code_points s)))
  | PList l => Ok (Z.of_nat (length l))
  | PDict d => Ok (Z.of_nat (size d))
  | PObj o => obj_len o
  | PNone | PInt _ => Raise (TypeError "object has no len()")
  end.

(** [v - n] for an int literal [n] *)
Definition py_sub (v : Val) (n : Z) : Res Val :=
  match v with
  | PInt z => Ok (PInt (z - n))
  | PObj o => obj_sub o n
  | _ => Raise (TypeError "unsupported operand type(s) for -")
  end.

(** [os.path.join(a, b)] (posixpath) *)
Fixpoint ends_with_slash (s : string) : bool :=
  match s with
  | EmptyString => false
  | String c EmptyString => if decide (c = "/"%char) then true else false
  | String _ rest => ends_with_slash rest
  end.

Definition starts_with_slash (s : string) : bool :=
  match s with
  | String c _ => if decide (c = "/"%char) then true else false
  | EmptyString => false
  end.

Definition os_path_join (a b : string) : string :=
  if starts_with_slash b then b
  else if (if decide (a = "") then true else ends_with_slash a) then a +:+ b
  else a +:+ "/" +:+ b.

End Python.

(** ** The result table, and how pandas writes it *)

Section Table.
Context {E : Env}.

(** A cell of the table: a str, or whatever [compute_property] returned. *)
Inductive Cell :=
| CStr (s : string)
| CScore (q : Score).

(** [data]: a dict from column name to list, in insertion order. *)
Definition Data := list (string * list Cell).

(** [data[k].append(v)]; [None] when [k] is not a key. *)
Fixpoint dict_append (k : string) (v : Cell) (d : Data) : option Data :=
  match d with
  | [] => None
  | (k', col) :: rest =>
      if decide (k = k') then Some ((k', col ++ [v]) :: rest)
      else (fun r => (k', col) :: r) <$> dict_append k v rest
  end.

Record DataFrame := mkFrame {
  columns : list string;
  rows : list (list Cell)
}.

(** Row [i] of a list of columns. *)
Definition row_at (cols : list (list Cell)) (i : nat) : list Cell :=
  omap (fun col => col !! i) cols.

(** [pd.DataFrame(data)] for a dict of lists. *)
Definition DataFrame_of_dict (data : Data) : Result (Exn Obj) DataFrame :=
  match data with
  | [] => Ok (mkFrame [] [])
  | (_, col0) :: _ =>
      if forallb (fun kc => Nat.eqb (length (snd kc)) (length col0)) data
      then Ok (mkFrame (fst <$> data)
                       (row_at (snd <$> data) <$> seq 0 (length col0)))
      else Raise (ValueError "All arrays must be of the same length")
  end.

(** The csv writer pandas drives: comma separated, quoting a field only
    when it holds the separator, the quote character or a line break, with
    quote characters doubled inside a quoted field. *)
Definition dquote : ascii := "034"%char.
Definition newline : ascii := "010"%char.

Definition csv_special (c : ascii) : bool :=
  if decide (c = ","%char) then true
  else if decide (c = dquote) then true
  else if decide (c = newline) then true
  else false.

Fixpoint csv_needs_quote (s : string) : bool :=
  match s with
  | EmptyString => false
  | String c rest => csv_special c || csv_needs_quote rest
  end.

Fixpoint csv_escape (s : string) : string :=
  match s with
  | EmptyString => EmptyString
  | String c rest =>
      if decide (c = dquote) then String c (String c (csv_escape rest))
      else String c (csv_escape rest)
  end.

Definition csv_quoted (s : string) : string :=
  String dquote (csv_escape s +:+ String dquote EmptyString).

Definition csv_field (s : string) : string :=
  if csv_needs_quote s then csv_quoted s else s.

Definition csv_record (fields : list string) : string :=
  match fields with
  | [f] => if decide (f = "") then csv_quoted f else csv_field f
  | _ => String.concat "," (csv_field <$> fields)
  end.

(** Column [j] of a frame, and the scores in a column. *)
Definition frame_column (df : DataFrame) (j : nat) : list Cell :=
  omap (fun r => r !! j) (rows df).

Definition scores_of (column : list Cell) : list Score :=
  omap (fun c => match c with CScore q => Some q | CStr _ => None end) column.

(** A cell as text: a str as it is, a score as pandas prints it in its
    column. *)
Definition render_cell (column : list Cell) (c : Cell) : string :=
  match c with
  | CStr s => s
  | CScore q => render_score (scores_of column) q
  end.

(** The records of [df.to_csv(path, index=False)]: the header, then one
    record per row. *)
Definition to_csv_records (df : DataFrame) : list string :=
  csv_record (columns df) ::
  ((fun r => csv_record (imap (fun j c => render_cell (frame_column df j) c) r))
     <$> rows df).

(** The text of the file: every record followed by a line break. *)
Definition csv_text (records : list string) : string :=
  foldr (fun r rest => r +:+ String newline rest) "" records.

(** [to_csv] compresses what it writes when the path ends, in any letter
    case, in one of these extensions (pandas' [compression='infer']); the
    first match in this order decides. *)
Inductive Compression := Tar | Gzip | Bz2 | Zip | Xz | Zstd.

Definition extension_to_compression : list (string * Compression) :=
  [ (".tar", Tar); (".tar.gz", Tar); (".tar.bz2", Tar); (".tar.xz", Tar);
    (".gz", Gzip); (".bz2", Bz2); (".zip", Zip); (".xz", Xz); (".zst", Zstd) ].

Definition ascii_lower (c : ascii) : ascii :=
  let n := nat_of_ascii c in
  if Nat.leb 65 n && Nat.leb n 90 then ascii_of_nat (n + 32) else c.

Fixpoint str_lower (s : string) : string :=
  match s with
  | EmptyString => EmptyString
  | String c rest => String (ascii_lower c) (str_lower rest)
  end.

Definition str_ends_with (suffix s : string) : bool :=
  let n := String.length s in
  let k := String.length suffix in
  Nat.leb k n && String.eqb (String.substring (n - k) k s) suffix.

Definition infer_compression (path : string) : option Compression :=
  snd <$> List.find (fun ec => str_ends_with (fst ec) (str_lower path))
                    extension_to_compression.

(** What a file holds: text, or text packed by a compressor. *)
Inductive FileContent :=
| Plain (text : string)
| Packed (c : Compression) (text : string).

(** What [to_csv] leaves at [path] for the text of a frame. *)
Definition stored (path text : string) : FileContent :=
  match infer_compression path with
  | None => Plain text
  | Some c => Packed c text
  end.

(** ** Reading a delimited table

    The reading of a file in delimited tabular format, a header row then
    data rows, that the table properties are stated against: fields are
    separated by commas, a record ends at a line feed, a field that starts
    with a double quote runs to the closing quote, and a doubled quote
    inside it stands for one quote character.  The result is the records in
    order, each the list of its fields; an empty line is a record of no
    field.  This is not code of the driver. *)
Inductive ReadMode :=
| AtRecord      (* at the start of a record *)
| AtField       (* after a comma *)
| InField       (* inside an unquoted field *)
| InQuoted      (* inside a quoted field *)
| AfterQuote.   (* after a quote inside a quoted field *)

(** Put a character in front of the field being read. *)
Definition push (c : ascii) (records : list (list string)) : list (list string) :=
  match records with
  | (f :: fields) :: more => (String c f :: fields) :: more
  | [] :: more => [String c EmptyString] :: more
  | [] => [[String c EmptyString]]
  end.

(** Put the characters of a string, in order, in front of the field being
    read. *)
Fixpoint push_all (f : string) (records : list (list string)) : list (list string) :=
  match f with
  | EmptyString => records
  | String c rest => push c (push_all rest records)
  end.

(** Start a field in front of the record being read. *)
Definition new_field (records : list (list string)) : list (list string) :=
  match records with
  | fields :: more => (EmptyString :: fields) :: more
  | [] => [[EmptyString]]
  end.

Fixpoint read_from (mode : ReadMode) (s : string) : option (list (list string)) :=
  match s with
  | EmptyString =>
      match mode with
      | AtRecord => Some []
      | InQuoted => None
      | AtField | InField | AfterQuote => Some [[EmptyString]]
      end
  | String c rest =>
      match mode with
      | AtRecord =>
          if decide (c = "010"%char) then cons [] <$> read_from AtRecord rest
          else if decide (c = ","%char) then new_field <$> read_from AtField rest
          else if decide (c = "034"%char) then read_from InQuoted rest
          else push c <$> read_from InField rest
      | AtField =>
          if decide (c = "010"%char) then cons [EmptyString] <$> read_from AtRecord rest
          else if decide (c = ","%char) then new_field <$> read_from AtField rest
          else if decide (c = "034"%char) then read_from InQuoted rest
          else push c <$> read_from InField rest
      | InField =>
          if decide (c = "010"%char) then cons [EmptyString] <$> read_from AtRecord rest
          else if decide (c = ","%char) then new_field <$> read_from AtField rest
          else push c <$> read_from InField rest
      | InQuoted =>
          if decide (c = "034"%char) then read_from AfterQuote rest
          else push c <$> read_from InQuoted rest
      | AfterQuote =>
          if decide (c = "010"%char) then cons [EmptyString] <$> read_from AtRecord rest
          else if decide (c = ","%char) then new_field <$> read_from AtField rest
          else if decide (c = "034"%char) then push c <$> read_from InQuoted rest
          else push c <$> read_from InField rest
      end
  end.

Definition read_delimited_table (text : string) : option (list (list string)) :=
  read_from AtRecord text.

End Table.

(** ** The world the driver runs in *)

Section Driver.
Context {E : Env}.

(** A call of a collaborator, with the arguments it was given. *)
Inductive Call :=
| CConfig
| CTorchLoad (path : string)
| CVAE (vocab_size embed latent : Z) (max_len pad_idx : PyVal Obj)
| CModuleTo (m : Model) (d : Device)
| CLoadStateDict (m : Model) (state : PyVal Obj)
| CRandn (rows cols : Z)
| CTensorTo (t : Tensor) (d : Device)
| COptimize (m : Model) (z : Tensor) (num_steps : Z) (lr : Q)
| CDecode (m : Model) (z : Tensor) (seen : TVal)
          (char_to_idx idx_to_char start_token end_token : PyVal Obj) (d : Device)
| CMolFromSmiles (smiles : string)
| CComputeProperty (smiles : string)
| CToCsv (df : DataFrame) (path : string).

(** A trace entry: the call, and the exception it raised if it did. *)
Record Event := mkEvent {
  ev_call : Call;
  ev_raised : option (Exn Obj)
}.

Record World := mkWorld {
  ext : Ext;                          (* the collaborators' state *)
  files : gmap string FileContent;    (* the files on disk, by path *)
  stdout : list string;               (* lines printed *)
  trace : list Event                  (* collaborator calls so far *)
}.

(** Computations: run in a world, return a value or raise. *)
Definition M (A : Type) : Type := World -> Result (Exn Obj) A * World.

Definition ret {A} (a : A) : M A := fun w => (Ok a, w).

Definition bind {A B} (c : M A) (k : A -> M B) : M B :=
  fun w =>
    match c w with
    | (Ok a, w1) => k a w1
    | (Raise e, w1) => (Raise e, w1)
    end.

(** A Python expression that may raise but touches nothing. *)
Definition eval {A} (r : Result (Exn Obj) A) : M A := fun w => (r, w).

Definition log (c : Call) (raised : option (Exn Obj)) (w : World) : World :=
  mkWorld (ext w) (files w) (stdout w) (trace w ++ [mkEvent c raised]).

(** Calling a collaborator: it runs on [ext], and the call is recorded. *)
Definition call {A} (c : Call) (f : Ext -> Result (Exn Obj) A * Ext) : M A :=
  fun w =>
    let '(r, x) := f (ext w) in
    (r, log c (exn_of r) (mkWorld x (files w) (stdout w) (trace w))).

Definition get_ext : M Ext := fun w => (Ok (ext w), w).

(** [df.to_csv(path, index=False)]: the path is opened, which may fail and
    then leaves the file as it was, and the text of the frame is written
    through the compressor the path selects.  A failure after the file has
    been opened is not part of this model. *)
Definition to_csv (df : DataFrame) (path : string) : M unit :=
  fun w =>
    match open_for_write path (ext w) with
    | Some e => (Raise e, log (CToCsv df path) (Some e) w)
    | None =>
        let text := csv_text (to_csv_records df) in
        (Ok tt,
         log (CToCsv df path) None
             (mkWorld (ext w) (<[path := stored path text]> (files w))
                      (stdout w) (trace w)))
    end.

(** [print(line)] *)
Definition print (line : string) : M unit :=
  fun w => (Ok tt, mkWorld (ext w) (files w) (stdout w ++ [line]) (trace w)).

(** [for _ in range(n): acc = body(acc)], for [n] iterations. *)
Fixpoint for_range {A} (n : nat) (body : A -> M A) (acc : A) : M A :=
  match n with
  | O => ret acc
  | S n' => bind (body acc) (for_range n' body)
  end.

End Driver.

Declare Scope driver_scope.
Delimit Scope driver_scope with driver.
Notation "x <- c ;; k" := (bind c (fun x => k))
  (at level 100, c at next level, right associativity) : driver_scope.
Notation "c ;;; k" := (bind c (fun _ => k))
  (at level 100, right associativity) : driver_scope.

(** ** [generate] *)

Section Generate.
Context {E : Env}.
Local Open Scope driver_scope.

(** The literals of the source. *)
Definition num_steps : Z := 100.
Definition lr : Q := 1 # 100.    (* 1e-2 *)

(** [data[k].append(v)] as a statement: KeyError when [k] is missing. *)
Definition append_to (k : string) (v : Cell) (data : Data) : M Data :=
  eval (match dict_append k v data with
        | Some data' => Ok data'
        | None => Raise (KeyError (PStr k))
        end).

(** ['Valid' if mol else 'Invalid']: None is false, a molecule is true. *)
Definition validity_label (mol : option Mol) : string :=
  match mol with
  | Some _ => "Valid"
  | None => "Invalid"
  end.

(** Lines 43-51, the body of the loop. *)
Definition decode_one (model : Model) (optimized_z : Tensor)
    (char_to_idx idx_to_char start_token end_token : PyVal Obj)
    (dev : Device) (data : Data) : M Data :=
  x <- get_ext ;;
  smiles <- call (CDecode model optimized_z (peek x optimized_z)
                          char_to_idx idx_to_char start_token end_token dev)
                 (decode_latent_vector_sample model optimized_z
                    char_to_idx idx_to_char start_token end_token dev) ;;
  mol <- call (CMolFromSmiles smiles) (fun x => (Ok (MolFromSmiles smiles), x)) ;;
  let valid := validity_label mol in
  properties <- call (CComputeProperty smiles)
                     (fun x => (compute_property smiles, x)) ;;
  data <- append_to "Generated_SMILES" (CStr smiles) data ;;
  data <- append_to "Validity" (CStr valid) data ;;
  data <- append_to "QED" (CScore properties) data ;;
  ret data.

Definition generate (num_molecules : Z) (model_dir output_path : string)
    : M Data :=
  config <- call CConfig Config_new ;;
  let info_path := os_path_join model_dir "model_info.pth" in
  model_info <- call (CTorchLoad info_path) (torch_load info_path) ;;
  vocab <- eval (py_getitem model_info (PStr "vocab")) ;;
  char_to_idx <- eval (py_getitem model_info (PStr "char_to_idx")) ;;
  idx_to_char <- eval (py_getitem model_info (PStr "idx_to_char")) ;;
  start_token <- eval (py_getitem model_info (PStr "start_token")) ;;
  end_token <- eval (py_getitem model_info (PStr "end_token")) ;;
  pad_token <- eval (py_getitem model_info (PStr "pad_token")) ;;
  max_length <- eval (py_getitem model_info (PStr "max_length")) ;;
  vocab_size <- eval (py_len vocab) ;;
  max_len <- eval (py_sub max_length 1) ;;
  pad_idx <- eval (py_getitem char_to_idx pad_token) ;;
  vae <- call (CVAE vocab_size (embed_size config) (latent_dim config)
                    max_len pad_idx)
              (VAE_new vocab_size (embed_size config) (latent_dim config)
                       max_len pad_idx) ;;
  model <- call (CModuleTo vae (device config))
                (module_to vae (device config)) ;;
  let weights_path := os_path_join model_dir "vae_model.pth" in
  state <- call (CTorchLoad weights_path) (torch_load weights_path) ;;
  call (CLoadStateDict model state) (load_state_dict model state) ;;;
  noise <- call (CRandn 1 (latent_dim config))
                (torch_randn 1 (latent_dim config)) ;;
  initial_z <- call (CTensorTo noise (device config))
                    (tensor_to noise (device config)) ;;
  optimized_z <- call (COptimize model initial_z num_steps lr)
                      (optimize_latent_vector model initial_z num_steps lr) ;;
  let data := [("Generated_SMILES", []); ("Validity", []); ("QED", [])] in
  data <- for_range (Z.to_nat num_molecules)
            (decode_one model optimized_z char_to_idx idx_to_char
                        start_token end_token (device config))
            data ;;
  df <- eval (DataFrame_of_dict data) ;;
  to_csv df output_path ;;;
  print ("Generated molecules saved to " +:+ output_path) ;;;
  ret data.

End Generate.

(** ** The run, phase by phase

    The same computation cut at the two places the properties speak of:
    everything up to the optimised latent vector (lines 25-40), the loop
    (lines 41-51), and the write-out (lines 53-57). *)

Section Phases.
Context {E : Env}.
Local Open Scope driver_scope.

(** The local variables bound before the loop. *)
Record Locals := mkLocals {
  l_config : Config Device;
  l_model_info : PyVal Obj;
  l_vocab : PyVal Obj;
  l_char_to_idx : PyVal Obj;
  l_idx_to_char : PyVal Obj;
  l_start_token : PyVal Obj;
  l_end_token : PyVal Obj;
  l_pad_token : PyVal Obj;
  l_max_length : PyVal Obj;
  l_vocab_size : Z;
  l_max_len : PyVal Obj;
  l_pad_idx : PyVal Obj;
  l_vae : Model;
  l_model : Model;
  l_state : PyVal Obj;
  l_noise : Tensor;
  l_initial_z : Tensor;
  l_optimized_z : Tensor
}.

Definition setup (model_dir : string) : M Locals :=
  config <- call CConfig Config_new ;;
  let info_path := os_path_join model_dir "model_info.pth" in
  model_info <- call (CTorchLoad info_path) (torch_load info_path) ;;
  vocab <- eval (py_getitem model_info (PStr "vocab")) ;;
  char_to_idx <- eval (py_getitem model_info (PStr "char_to_idx")) ;;
  idx_to_char <- eval (py_getitem model_info (PStr "idx_to_char")) ;;
  start_token <- eval (py_getitem model_info (PStr "start_token")) ;;
  end_token <- eval (py_getitem model_info (PStr "end_token")) ;;
  pad_token <- eval (py_getitem model_info (PStr "pad_token")) ;;
  max_length <- eval (py_getitem model_info (PStr "max_length")) ;;
  vocab_size <- eval (py_len vocab) ;;
  max_len <- eval (py_sub max_length 1) ;;
  pad_idx <- eval (py_getitem char_to_idx pad_token) ;;
  vae <- call (CVAE vocab_size (embed_size config) (latent_dim config)
                    max_len pad_idx)
              (VAE_new vocab_size (embed_size config) (latent_dim config)
                       max_len pad_idx) ;;
  model <- call (CModuleTo vae (device config))
                (module_to vae (device config)) ;;
  let weights_path := os_path_join model_dir "vae_model.pth" in
  state <- call (CTorchLoad weights_path) (torch_load weights_path) ;;
  call (CLoadStateDict model state) (load_state_dict model state) ;;;
  noise <- call (CRandn 1 (latent_dim config))
                (torch_randn 1 (latent_dim config)) ;;
  initial_z <- call (CTensorTo noise (device config))
                    (tensor_to noise (device config)) ;;
  optimized_z <- call (COptimize model initial_z num_steps lr)
                      (optimize_latent_vector model initial_z num_steps lr) ;;
  ret (mkLocals config model_info vocab char_to_idx idx_to_char start_token
                end_token pad_token max_length vocab_size max_len pad_idx
                vae model state noise initial_z optimized_z).

Definition empty_table : Data :=
  [("Generated_SMILES", []); ("Validity", []); ("QED", [])].

Definition loop_body (l : Locals) : Data -> M Data :=
  decode_one (l_model l) (l_optimized_z l) (l_char_to_idx l) (l_idx_to_char l)
             (l_start_token l) (l_end_token l) (device (l_config l)).

Definition decode_loop (num_molecules : Z) (l : Locals) : M Data :=
  for_range (Z.to_nat num_molecules) (loop_body l) empty_table.

Definition persist (output_path : string) (data : Data) : M Data :=
  df <- eval (DataFrame_of_dict data) ;;
  to_csv df output_path ;;;
  print ("Generated molecules saved to " +:+ output_path) ;;;
  ret data.

(** The calls of a successful [setup], in order. *)
Definition ok (c : Call) : Event := mkEvent c None.

Definition setup_events (model_dir : string) (l : Locals) : list Event :=
  let config := l_config l in
  [ ok CConfig;
    ok (CTorchLoad (os_path_join model_dir "model_info.pth"));
    ok (CVAE (l_vocab_size l) (embed_size config) (latent_dim config)
             (l_max_len l) (l_pad_idx l));
    ok (CModuleTo (l_vae l) (device config));
    ok (CTorchLoad (os_path_join model_dir "vae_model.pth"));
    ok (CLoadStateDict (l_model l) (l_state l));
    ok (CRandn 1 (latent_dim config));
    ok (CTensorTo (l_noise l) (device config));
    ok (COptimize (l_model l) (l_initial_z l) 100 (1 # 100)) ].

(** One completed iteration: what the decoder saw in the latent vector,
    the string it returned and the score of that string. *)
Record Iter := mkIter {
  it_seen : TVal;
  it_smiles : string;
  it_score : Score
}.

Definition iter_events (l : Locals) (it : Iter) : list Event :=
  [ ok (CDecode (l_model l) (l_optimized_z l) (it_seen it) (l_char_to_idx l)
                (l_idx_to_char l) (l_start_token l) (l_end_token l)
                (device (l_config l)));
    ok (CMolFromSmiles (it_smiles it));
    ok (CComputeProperty (it_smiles it)) ].

Definition loop_events (l : Locals) (its : list Iter) : list Event :=
  concat (iter_events l <$> its).

(** The table holding the rows of the given iterations. *)
Definition smiles_cell (it : Iter) : Cell := CStr (it_smiles it).
Definition validity_cell (it : Iter) : Cell :=
  CStr (validity_label (MolFromSmiles (it_smiles it))).
Definition score_cell (it : Iter) : Cell := CScore (it_score it).

Definition table_of (its : list Iter) : Data :=
  [ ("Generated_SMILES", smiles_cell <$> its);
    ("Validity", validity_cell <$> its);
    ("QED", score_cell <$> its) ].

(** The decoder called once per iteration, each call starting from the
    state the previous one left. *)
Inductive decoded (l : Locals) : Ext -> list Iter -> Ext -> Prop :=
| decoded_nil x : decoded l x [] x
| decoded_cons x it x1 its x' :
    decode_latent_vector_sample (l_model l) (l_optimized_z l) (l_char_to_idx l)
      (l_idx_to_char l) (l_start_token l) (l_end_token l) (device (l_config l)) x
      = (Ok (it_smiles it), x1) ->
    it_seen it = peek x (l_optimized_z l) ->
    decoded l x1 its x' ->
    decoded l x (it :: its) x'.


Definition row_of (it : Iter) : list Cell :=
  [smiles_cell it; validity_cell it; score_cell it].

Definition header : string := "Generated_SMILES,Validity,QED".

(** The frame pandas builds from [table_of its]. *)
Definition frame_of (its : list Iter) : DataFrame :=
  mkFrame ["Generated_SMILES"; "Validity"; "QED"] (row_of <$> its).

Definition header_fields : list string := ["Generated_SMILES"; "Validity"; "QED"].

(** The fields of the record written for an iteration of a run. *)
Definition fields_of (its : list Iter) (it : Iter) : list string :=
  [ it_smiles it; validity_label (MolFromSmiles (it_smiles it));
    render_score (it_score <$> its) (it_score it) ].

Definition csv_of (its : list Iter) : list string :=
  header :: ((fun it => csv_record (fields_of its it)) <$> its).

(** ** Classifying calls *)

Definition is_decode (c : Call) : bool :=
  match c with CDecode _ _ _ _ _ _ _ _ => true | _ => false end.
Definition is_randn (c : Call) : bool :=
  match c with CRandn _ _ => true | _ => false end.
Definition is_optimize (c : Call) : bool :=
  match c with COptimize _ _ _ _ => true | _ => false end.
Definition is_to_csv (c : Call) : bool :=
  match c with CToCsv _ _ => true | _ => false end.
Definition is_torch_load (c : Call) : bool :=
  match c with CTorchLoad _ => true | _ => false end.
Definition is_loop_call (c : Call) : bool :=
  match c with
  | CDecode _ _ _ _ _ _ _ _ | CMolFromSmiles _ | CComputeProperty _ => true
  | _ => false
  end.
Definition is_setup_call (c : Call) : bool :=
  match c with
  | CConfig | CTorchLoad _ | CVAE _ _ _ _ _ | CModuleTo _ _
  | CLoadStateDict _ _ | CRandn _ _ | CTensorTo _ _ | COptimize _ _ _ _ => true
  | _ => false
  end.

Definition count (p : Call -> bool) (evs : list Event) : nat :=
  length (List.filter (fun ev => p (ev_call ev)) evs).

(** ** How exceptions travel

    No call of the list raised, or the last one did and its exception is
    the result. *)
Definition clean (evs : list Event) : Prop :=
  Forall (fun ev => ev_raised ev = None) evs.

Definition propagated {A} (evs : list Event) (r : Result (Exn Obj) A) : Prop :=
  clean evs \/
  exists evs0 c e, evs = evs0 ++ [mkEvent c (Some e)] /\ clean evs0 /\ r = Raise e.

(** What holds of a computation that only calls collaborators satisfying
    [P], whatever its outcome. *)
Definition steps {A} (P : Call -> bool) (c : M A) : Prop :=
  forall w r w', c w = (r, w') ->
    files w' = files w /\ stdout w' = stdout w /\
    exists evs, trace w' = trace w ++ evs /\
                Forall (fun ev => P (ev_call ev) = true) evs /\
                propagated evs r.

End Phases.

(** ** A small instance of the collaborators, to run the driver on *)

Module Toy.

(** The metadata checkpoint of a small vocabulary. *)
Definition toy_vocab : PyVal Empty_set :=
  PList [PStr "C"; PStr "O"; PStr "("; PStr "_"].

Definition toy_mapping : gmap Key (PyVal Empty_set) := {[ KStr "_" := PInt 3 ]}.

Definition toy_idx_to_char : PyVal Empty_set := PDict {[ KInt 3 := PStr "_" ]}.

Definition toy_info (pad : string) : PyVal Empty_set :=
  PDict (list_to_map
    [ (KStr "vocab", toy_vocab);
      (KStr "char_to_idx", PDict toy_mapping);
      (KStr "idx_to_char", toy_idx_to_char);
      (KStr "start_token", PStr "<");
      (KStr "end_token", PStr ">");
      (KStr "pad_token", PStr pad);
      (KStr "max_length", PInt 10) ]).

(** The external state is the number of decodes made so far and the
    number the latent tensor holds; the optimiser writes the latter, the
    decoder alternates between a parseable and an unparseable string. *)
Definition toy_decode (n : nat) : string :=
  if Nat.even n then "CCO" else "C((".

Definition toy_parse (s : string) : option unit :=
  if decide (s = "CCO") then Some tt else None.

Definition toy_env (pad : string) (fail_decode_at : option nat) : Env := {|
  Obj := Empty_set;
  Ext := nat * Z;
  Device := unit;
  Model := unit;
  Tensor := nat;
  TVal := Z;
  Mol := unit;
  Score := nat;
  obj_getitem := fun o _ => match o with end;
  obj_len := fun o => match o with end;
  obj_sub := fun o _ => match o with end;
  obj_key := fun o => match o with end;
  obj_index := fun o => match o with end;
  Config_new := fun x => (Ok (mkConfig 64 8 tt), x);
  torch_load := fun path x =>
    if decide (path = "ckpt/model_info.pth") then (Ok (toy_info pad), x)
    else if decide (path = "ckpt/vae_model.pth") then (Ok (PDict ∅), x)
    else (Raise (OtherError "FileNotFoundError" path), x);
  VAE_new := fun _ _ _ _ _ x => (Ok tt, x);
  module_to := fun m _ x => (Ok m, x);
  load_state_dict := fun _ _ x => (Ok tt, x);
  torch_randn := fun _ _ x => (Ok 7%nat, x);
  tensor_to := fun t _ x => (Ok t, x);
  optimize_latent_vector := fun _ z _ _ x => (Ok z, (fst x, 42));
  decode_latent_vector_sample := fun _ _ _ _ _ _ _ x =>
    if decide (fail_decode_at = Some (fst x))
    then (Raise (OtherError "RuntimeError" "decode"), (S (fst x), snd x))
    else (Ok (toy_decode (fst x)), (S (fst x), snd x));
  MolFromSmiles := toy_parse;
  compute_property := fun s => Ok (String.length s);
  render_score := fun _ q => if decide (q = 3%nat) then "3" else "?";
  open_for_write := fun path _ =>
    if decide (path = "") then Some (OtherError "FileNotFoundError" path) else None;
  peek := fun x _ => snd x
|}.

(** A usable checkpoint, and a decoder that never fails. *)
Definition env : Env := toy_env "_" None.

Definition w0 : @World env := @mkWorld env (0%nat, 0) ∅ [] [].

Definition run (n : Z) : Result (Exn Empty_set) (@Data env) * @World env :=
  @generate env n "ckpt" "out.csv" w0.

(** A checkpoint whose pad symbol is not in its mapping. *)
Definition env_no_pad : Env := toy_env "x" None.

(** A decoder that fails on its second call. *)
Definition env_failing : Env := toy_env "_" (Some 1%nat).

End Toy.

(** ** Reading a run off its trace, and the metadata part of the setup *)

Section Observations.
Context {E : Env}.

(** The entries [generate] reads from the metadata checkpoint (lines 27-33),
    in the order it reads them. *)
Definition metadata_keys : list string :=
  ["vocab"; "char_to_idx"; "idx_to_char"; "start_token"; "end_token";
   "pad_token"; "max_length"].

(** What lines 27-36 compute from the loaded metadata before any further
    collaborator is called. *)
Record Metadata := mkMetadata {
  md_vocab : PyVal Obj;
  md_char_to_idx : PyVal Obj;
  md_idx_to_char : PyVal Obj;
  md_start_token : PyVal Obj;
  md_end_token : PyVal Obj;
  md_pad_token : PyVal Obj;
  md_max_length : PyVal Obj;
  md_vocab_size : Z;
  md_max_len : PyVal Obj;
  md_pad_idx : PyVal Obj
}.

Definition and_then {A B} (r : Result (Exn Obj) A) (k : A -> Result (Exn Obj) B)
    : Result (Exn Obj) B :=
  match r with
  | Ok a => k a
  | Raise e => Raise e
  end.

(** The Python expressions of lines 27-36 on [model_info], in evaluation
    order: the seven subscripts, [len(vocab)], [max_length - 1] and
    [char_to_idx[pad_token]]. *)
Definition read_metadata (model_info : PyVal Obj) : Result (Exn Obj) Metadata :=
  and_then (py_getitem model_info (PStr "vocab")) (fun vocab =>
  and_then (py_getitem model_info (PStr "char_to_idx")) (fun char_to_idx =>
  and_then (py_getitem model_info (PStr "idx_to_char")) (fun idx_to_char =>
  and_then (py_getitem model_info (PStr "start_token")) (fun start_token =>
  and_then (py_getitem model_info (PStr "end_token")) (fun end_token =>
  and_then (py_getitem model_info (PStr "pad_token")) (fun pad_token =>
  and_then (py_getitem model_info (PStr "max_length")) (fun max_length =>
  and_then (py_len vocab) (fun vocab_size =>
  and_then (py_sub max_length 1) (fun max_len =>
  and_then (py_getitem char_to_idx pad_token) (fun pad_idx =>
  Ok (mkMetadata vocab char_to_idx idx_to_char start_token end_token pad_token
                 max_length vocab_size max_len pad_idx))))))))))).

(** The paths given to [torch.load], the strings given to the parser and
    the strings given to the scorer, in call order. *)
Definition loaded_paths (evs : list Event) : list string :=
  omap (fun ev => match ev_call ev with CTorchLoad path => Some path | _ => None end) evs.

Definition parsed_strings (evs : list Event) : list string :=
  omap (fun ev => match ev_call ev with CMolFromSmiles s => Some s | _ => None end) evs.

Definition scored_strings (evs : list Event) : list string :=
  omap (fun ev => match ev_call ev with CComputeProperty s => Some s | _ => None end) evs.

Definition no_raise (ev : Event) : bool :=
  match ev_raised ev with
  | None => true
  | Some _ => false
  end.

(** The last call of an aborted iteration: the decoder raised, or it
    returned and the scorer raised on its string. *)
Definition aborted_iteration (l : Locals) (e : Exn Obj) (tail : list Event) : Prop :=
  (exists seen,
     tail = [mkEvent (CDecode (l_model l) (l_optimized_z l) seen (l_char_to_idx l)
                              (l_idx_to_char l) (l_start_token l) (l_end_token l)
                              (device (l_config l))) (Some e)]) \/
  (exists seen smiles,
     tail = [ok (CDecode (l_model l) (l_optimized_z l) seen (l_char_to_idx l)
                         (l_idx_to_char l) (l_start_token l) (l_end_token l)
                         (device (l_config l)));
             ok (CMolFromSmiles smiles);
             mkEvent (CComputeProperty smiles) (Some e)]).

End Observations.

(** ** Further instances: damaged checkpoints, a scorer that fails *)

Module Cases.

(** A metadata checkpoint without its [end_token] entry. *)
Definition info_no_end_token : gmap Key (PyVal Empty_set) :=
  list_to_map
    [ (KStr "vocab", Toy.toy_vocab);
      (KStr "char_to_idx", PDict Toy.toy_mapping);
      (KStr "idx_to_char", Toy.toy_idx_to_char);
      (KStr "start_token", PStr "<");
      (KStr "pad_token", PStr "_");
      (KStr "max_length", PInt 10) ].

(** A metadata checkpoint whose [max_length] is a str, and whose pad symbol
    is not in the mapping either. *)
Definition info_str_max_length : PyVal Empty_set :=
  PDict (list_to_map
    [ (KStr "vocab", Toy.toy_vocab);
      (KStr "char_to_idx", PDict Toy.toy_mapping);
      (KStr "idx_to_char", Toy.toy_idx_to_char);
      (KStr "start_token", PStr "<");
      (KStr "end_token", PStr ">");
      (KStr "pad_token", PStr "x");
      (KStr "max_length", PStr "10") ]).

(** [Toy.env] with another metadata file and a scorer that may refuse a
    string. *)
Definition env_with (info : PyVal Empty_set) (refused : string) : Env := {|
  Obj := Empty_set;
  Ext := nat * Z;
  Device := unit;
  Model := unit;
  Tensor := nat;
  TVal := Z;
  Mol := unit;
  Score := nat;
  obj_getitem := @obj_getitem Toy.env;
  obj_len := @obj_len Toy.env;
  obj_sub := @obj_sub Toy.env;
  obj_key := @obj_key Toy.env;
  obj_index := @obj_index Toy.env;
  Config_new := @Config_new Toy.env;
  torch_load := fun path x =>
    if decide (path = "ckpt/model_info.pth") then (Ok info, x)
    else @torch_load Toy.env path x;
  VAE_new := @VAE_new Toy.env;
  module_to := @module_to Toy.env;
  load_state_dict := @load_state_dict Toy.env;
  torch_randn := @torch_randn Toy.env;
  tensor_to := @tensor_to Toy.env;
  optimize_latent_vector := @optimize_latent_vector Toy.env;
  decode_latent_vector_sample := @decode_latent_vector_sample Toy.env;
  MolFromSmiles := @MolFromSmiles Toy.env;
  compute_property := fun s =>
    if decide (s = refused) then Raise (ValueError "no molecule")
    else Ok (String.length s);
  render_score := @render_score Toy.env;
  open_for_write := @open_for_write Toy.env;
  peek := @peek Toy.env
|}.

Definition env_no_end_token : Env := env_with (PDict info_no_end_token) "".
Definition env_str_max_length : Env := env_with info_str_max_length "".

(** The scorer refuses the unparseable string the toy decoder produces on
    its second call. *)
Definition env_scorer_fails : Env := env_with (Toy.toy_info "_") "C((".


Definition start (E : Env) (x : @Ext E) : @World E := mkWorld x ∅ [] [].

End Cases.


(** * Properties *)

(** ** The Python operations on small inputs *)

Example os_path_join_plain :
  os_path_join "ckpt" "model_info.pth" = "ckpt/model_info.pth".
Proof. reflexivity. Qed.

Example os_path_join_trailing_slash :
  os_path_join "ckpt/" "vae_model.pth" = "ckpt/vae_model.pth".
Proof. reflexivity. Qed.

Example os_path_join_empty_dir : os_path_join "" "model_info.pth" = "model_info.pth".
Proof. reflexivity. Qed.

Example py_getitem_last :
  py_getitem (E:=Toy.env) (PList [PInt 1; PInt 2]) (PInt (-1)) = Ok (PInt 2).
Proof. reflexivity. Qed.

Example py_getitem_out_of_range :
  py_getitem (E:=Toy.env) (PStr "CO") (PInt 2) = Raise (IndexError "string index out of range").
Proof. reflexivity. Qed.

Example py_getitem_unhashable :
  py_getitem (E:=Toy.env) (PDict ∅) (PList []) = Raise (TypeError "unhashable type").
Proof. reflexivity. Qed.

Example py_len_of_int : py_len (E:=Toy.env) (PInt 3) = Raise (TypeError "object has no len()").
Proof. reflexivity. Qed.

Example csv_record_plain :
  csv_record ["Generated_SMILES"; "Validity"; "QED"] = "Generated_SMILES,Validity,QED".
Proof. reflexivity. Qed.

Example csv_record_quoted :
  csv_record ["C,O"; "Invalid"] = String dquote ("C,O" +:+ String dquote ",Invalid").
Proof. reflexivity. Qed.

Example csv_text_header_only :
  csv_text ["Generated_SMILES,Validity,QED"]
  = "Generated_SMILES,Validity,QED" +:+ String newline "".
Proof. reflexivity. Qed.

Example DataFrame_of_uneven_dict :
  DataFrame_of_dict (E:=Toy.env) [("a", [CStr "x"]); ("b", [])]
  = Raise (ValueError "All arrays must be of the same length").
Proof. reflexivity. Qed.

Example dict_append_missing_key :
  dict_append (E:=Toy.env) "QED" (CStr "x") [("Validity", [])] = None.
Proof. reflexivity. Qed.

(** ** Stepping through a computation *)

Section Stepping.
Context {E : Env}.

Lemma bind_inv {A B} (c : M A) (k : A -> M B) w r w' :
  bind c k w = (r, w') ->
  (exists e, c w = (Raise e, w') /\ r = Raise e) \/
  (exists a w1, c w = (Ok a, w1) /\ k a w1 = (r, w')).
Proof.
  unfold bind. destruct (c w) as [[a|e] w1]; intros H.
  - right. eauto.
  - left. inversion H; subst. eauto.
Qed.

Lemma bind_ok_inv {A B} (c : M A) (k : A -> M B) w b w' :
  bind c k w = (Ok b, w') ->
  exists a w1, c w = (Ok a, w1) /\ k a w1 = (Ok b, w').
Proof.
  intros H. destruct (bind_inv _ _ _ _ _ H) as [(e & _ & He)|H']; [discriminate|exact H'].
Qed.

Lemma call_inv {A} (c : Call) (f : Ext -> Result (Exn Obj) A * Ext) w r w' :
  call c f w = (r, w') ->
  f (ext w) = (r, ext w') /\
  files w' = files w /\ stdout w' = stdout w /\
  trace w' = trace w ++ [mkEvent c (exn_of r)].
Proof.
  unfold call, log. destruct (f (ext w)) as [r0 x]. simpl.
  intros H. inversion H; subst. auto.
Qed.

Lemma eval_inv {A} (r0 : Result (Exn Obj) A) w r w' :
  eval r0 w = (r, w') -> r = r0 /\ w' = w.
Proof. unfold eval. intros H. inversion H; auto. Qed.

Lemma clean_app evs1 evs2 : clean evs1 -> clean evs2 -> clean (evs1 ++ evs2).
Proof. unfold clean. intros. apply Forall_app; auto. Qed.

Lemma propagated_ok {A} evs (a : A) : propagated evs (Ok a) -> clean evs.
Proof. intros [H|(? & ? & ? & _ & _ & H)]; [exact H|discriminate]. Qed.

Lemma propagated_app {A} evs1 evs2 (r : Result (Exn Obj) A) :
  clean evs1 -> propagated evs2 r -> propagated (evs1 ++ evs2) r.
Proof.
  intros H1 [H2|(evs0 & c & e & -> & H0 & ->)].
  - left. by apply clean_app.
  - right. exists (evs1 ++ evs0), c, e. rewrite app_assoc.
    split; [done|]. split; [by apply clean_app|done].
Qed.

Lemma propagated_retype {A B} evs e :
  propagated evs (@Raise _ A e) -> propagated evs (@Raise _ B e).
Proof.
  intros [H|(evs0 & c & e' & -> & H0 & He)]; [by left|].
  right. exists evs0, c, e'. inversion He; subst. auto.
Qed.

Lemma steps_ret {A} P (a : A) : steps P (ret a).
Proof.
  intros w r w' H. inversion H; subst.
  repeat split. exists []. rewrite app_nil_r. repeat split; [constructor|left; constructor].
Qed.

Lemma steps_eval {A} P (r0 : Result (Exn Obj) A) : steps P (eval r0).
Proof.
  intros w r w' H. inversion H; subst.
  repeat split. exists []. rewrite app_nil_r. repeat split; [constructor|left; constructor].
Qed.

Lemma steps_get_ext P : steps P get_ext.
Proof.
  intros w r w' H. inversion H; subst.
  repeat split. exists []. rewrite app_nil_r. repeat split; [constructor|left; constructor].
Qed.

Lemma steps_call {A} (P : Call -> bool) c (f : Ext -> Result (Exn Obj) A * Ext) :
  P c = true -> steps P (call c f).
Proof.
  intros HP w r w' H. apply call_inv in H as (Hx & Hf & Hs & Ht).
  repeat split; try done. eexists. split; [exact Ht|]. split.
  - repeat constructor. exact HP.
  - destruct r as [a|e]; simpl.
    + left. repeat constructor.
    + right. exists [], c, e. repeat split. constructor.
Qed.

Lemma steps_bind {A B} P (c : M A) (k : A -> M B) :
  steps P c -> (forall a, steps P (k a)) -> steps P (bind c k).
Proof.
  intros Hc Hk w r w' H.
  apply bind_inv in H as [(e & H & ->)|(a & w1 & H1 & H2)].
  - destruct (Hc _ _ _ H) as (Hf & Hs & evs & Ht & HP & Hp).
    repeat split; try done. exists evs. repeat split; try done.
    by apply (propagated_retype (A:=A)).
  - destruct (Hc _ _ _ H1) as (Hf1 & Hs1 & evs1 & Ht1 & HP1 & Hp1).
    destruct (Hk a _ _ _ H2) as (Hf2 & Hs2 & evs2 & Ht2 & HP2 & Hp2).
    split; [congruence|]. split; [congruence|].
    exists (evs1 ++ evs2). rewrite Ht2, Ht1, app_assoc.
    split; [done|]. split; [by apply Forall_app|].
    apply propagated_app; [|done]. by apply propagated_ok in Hp1.
Qed.

Lemma steps_for_range {A} P (body : A -> M A) n :
  (forall a, steps P (body a)) -> forall a, steps P (for_range n body a).
Proof.
  intros Hb. induction n as [|n IH]; intros a; simpl.
  - apply steps_ret.
  - apply steps_bind; [apply Hb|exact IH].
Qed.

End Stepping.

(** ** The phases *)

Ltac step_through :=
  repeat first
    [ apply steps_ret
    | apply steps_eval
    | apply steps_get_ext
    | apply steps_call; reflexivity
    | apply steps_bind; [|intros ?] ].

Ltac invert_run :=
  repeat match goal with
    | H : bind _ _ _ = (Ok _, _) |- _ =>
        let a := fresh "a" in
        let w := fresh "w" in
        let Hc := fresh "Hc" in
        apply bind_ok_inv in H as (a & w & Hc & H); cbv beta zeta in H
    | H : call _ _ _ = (_, _) |- _ =>
        let Hx := fresh "Hx" in
        let Hf := fresh "Hf" in
        let Hs := fresh "Hs" in
        let Ht := fresh "Ht" in
        apply call_inv in H as (Hx & Hf & Hs & Ht)
    | H : eval _ _ = (_, _) |- _ =>
        let Hr := fresh "Hr" in
        apply eval_inv in H as [Hr ->]
    | H : ret _ _ = (_, _) |- _ => unfold ret in H; inversion H; subst; clear H
    | H : get_ext _ = (_, _) |- _ => unfold get_ext in H; inversion H; subst; clear H
    end.

(** Closes a goal about the last world of a chain of steps. *)
Ltac chain :=
  repeat match goal with
    | H : trace ?w = _ |- context [trace ?w] => rewrite H; clear H
    | H : files ?w = _ |- context [files ?w] => rewrite H; clear H
    | H : stdout ?w = _ |- context [stdout ?w] => rewrite H; clear H
    end;
  repeat rewrite <- app_assoc; simpl; try reflexivity.

Section PhaseFacts.
Context {E : Env}.

Lemma generate_phases num_molecules model_dir output_path w :
  generate num_molecules model_dir output_path w =
  bind (setup model_dir)
       (fun l => bind (decode_loop num_molecules l) (persist output_path)) w.
Proof.
  unfold generate, setup, decode_loop, loop_body, persist, empty_table.
  cbv beta zeta delta [bind].
  repeat match goal with
    | |- context [match ?c w with _ => _ end] =>
        destruct (c w) as [[?|?] ?]; try reflexivity
    | |- context [match ?c ?v with _ => _ end] =>
        is_var v; destruct (c v) as [[?|?] ?]; try reflexivity
    end.
Qed.

Lemma steps_setup model_dir : steps is_setup_call (setup model_dir).
Proof. unfold setup. step_through. Qed.

Lemma steps_loop_body l data : steps is_loop_call (loop_body l data).
Proof. unfold loop_body, decode_one, append_to. step_through. Qed.

Lemma steps_decode_loop n l : steps is_loop_call (decode_loop n l).
Proof. apply steps_for_range. apply steps_loop_body. Qed.

End PhaseFacts.

Section LoopFacts.
Context {E : Env}.

Lemma setup_ok model_dir w l w1 :
  setup model_dir w = (Ok l, w1) ->
  files w1 = files w /\ stdout w1 = stdout w /\
  trace w1 = trace w ++ setup_events model_dir l /\
  py_getitem (l_char_to_idx l) (l_pad_token l) = Ok (l_pad_idx l) /\
  (exists x, Config_new (ext w) = (Ok (l_config l), x)) /\
  (exists x, optimize_latent_vector (l_model l) (l_initial_z l) num_steps lr x
             = (Ok (l_optimized_z l), ext w1)).
Proof.
  intros H. unfold setup in H. invert_run. simpl.
  split; [chain|]. split; [chain|]. split; [chain|].
  split; [done|]. split; eauto.
Qed.

Lemma dict_append_table its k v :
  dict_append k v (table_of its) =
  if decide (k = "Generated_SMILES")
  then Some [("Generated_SMILES", (smiles_cell <$> its) ++ [v]);
             ("Validity", validity_cell <$> its); ("QED", score_cell <$> its)]
  else if decide (k = "Validity")
  then Some [("Generated_SMILES", smiles_cell <$> its);
             ("Validity", (validity_cell <$> its) ++ [v]); ("QED", score_cell <$> its)]
  else if decide (k = "QED")
  then Some [("Generated_SMILES", smiles_cell <$> its);
             ("Validity", validity_cell <$> its); ("QED", (score_cell <$> its) ++ [v])]
  else None.
Proof.
  unfold table_of. simpl. repeat case_decide; reflexivity.
Qed.

Lemma loop_body_ok l its w data' w' :
  loop_body l (table_of its) w = (Ok data', w') ->
  exists it,
    data' = table_of (its ++ [it]) /\
    it_seen it = peek (ext w) (l_optimized_z l) /\
    decode_latent_vector_sample (l_model l) (l_optimized_z l) (l_char_to_idx l)
      (l_idx_to_char l) (l_start_token l) (l_end_token l) (device (l_config l)) (ext w)
      = (Ok (it_smiles it), ext w') /\
    compute_property (it_smiles it) = Ok (it_score it) /\
    files w' = files w /\ stdout w' = stdout w /\
    trace w' = trace w ++ iter_events l it.
Proof.
  intros H. unfold loop_body, decode_one, append_to in H. invert_run.
  simpl in *.
  repeat match goal with
    | H : (_, _) = (_, _) |- _ => inversion H; subst; clear H
    end.
  match goal with
  | Hd : decode_latent_vector_sample _ _ _ _ _ _ _ _ = (Ok ?s, _),
    Hp : compute_property ?s = Ok ?q |- _ =>
      eexists (mkIter _ s q)
  end.
  simpl. repeat rewrite <- app_assoc. simpl.
  repeat (match goal with
          | H : Ok ?a = Ok _ |- _ => is_var a; inversion H; subst; clear H
          end; simpl in * ).
  split; [unfold table_of; rewrite !fmap_app; reflexivity|].
  split; [reflexivity|]. split; [congruence|]. split; [done|].
  split; [chain|]. split; chain.
Qed.

Lemma loop_ok l n : forall its w data' w',
  for_range n (loop_body l) (table_of its) w = (Ok data', w') ->
  exists its',
    length its' = n /\
    data' = table_of (its ++ its') /\
    Forall (fun it => compute_property (it_smiles it) = Ok (it_score it)) its' /\
    files w' = files w /\ stdout w' = stdout w /\
    trace w' = trace w ++ loop_events l its' /\
    decoded l (ext w) its' (ext w').
Proof.
  induction n as [|n IH]; intros its w data' w' H; simpl in H.
  - inversion H; subst. exists []. rewrite !app_nil_r.
    repeat split; try done. constructor.
  - apply bind_ok_inv in H as (data1 & w1 & Hb & Hrest).
    apply loop_body_ok in Hb as (it & -> & Hseen & Hdec & Hprop & Hf & Hs & Ht).
    apply IH in Hrest as (its' & Hlen & -> & Hall & Hf' & Hs' & Ht' & Hd').
    exists (it :: its'). simpl.
    rewrite <- app_assoc. simpl.
    split; [by rewrite Hlen|]. split; [done|].
    split; [by constructor|].
    split; [congruence|]. split; [congruence|].
    split.
    + rewrite Ht', Ht. unfold loop_events. simpl. by rewrite <- app_assoc.
    + econstructor; eauto.
Qed.

Lemma rows_of_columns (its : list Iter) :
  row_at [smiles_cell <$> its; validity_cell <$> its; score_cell <$> its]
    <$> seq 0 (length its)
  = row_of <$> its.
Proof.
  induction its as [|it its IH]; [reflexivity|].
  simpl. f_equal.
  rewrite <- fmap_S_seq, <- list_fmap_compose. exact IH.
Qed.

Lemma DataFrame_of_table its :
  DataFrame_of_dict (table_of its) = Ok (frame_of its).
Proof.
  unfold DataFrame_of_dict, table_of, frame_of. simpl.
  rewrite !length_fmap, Nat.eqb_refl. simpl.
  by rewrite rows_of_columns.
Qed.

Lemma frame_column_scores its :
  scores_of (frame_column (frame_of its) 2) = it_score <$> its.
Proof.
  change (frame_column (frame_of its) 2)
    with (omap (fun r : list Cell => r !! 2%nat) (row_of <$> its)).
  induction its as [|it its IH]; [reflexivity|].
  cbn. f_equal. exact IH.
Qed.

Lemma to_csv_records_table its : to_csv_records (frame_of its) = csv_of its.
Proof.
  unfold to_csv_records, csv_of. f_equal.
  change (rows (frame_of its)) with (row_of <$> its).
  rewrite <- list_fmap_compose. apply list_fmap_ext. intros i it _.
  unfold compose, row_of, fields_of. cbn [imap render_cell smiles_cell
    validity_cell score_cell compose].
  by rewrite frame_column_scores.
Qed.

Lemma persist_ok output_path its w data w' :
  persist output_path (table_of its) w = (Ok data, w') ->
  data = table_of its /\
  open_for_write output_path (ext w) = None /\
  ext w' = ext w /\
  files w' = <[output_path := stored output_path (csv_text (csv_of its))]> (files w) /\
  stdout w' = stdout w ++ ["Generated molecules saved to " +:+ output_path] /\
  trace w' = trace w ++ [ok (CToCsv (frame_of its) output_path)].
Proof.
  unfold persist. rewrite DataFrame_of_table. unfold bind, eval, to_csv, print, ret.
  rewrite to_csv_records_table.
  destruct (open_for_write output_path (ext w)) eqn:Hopen; intros H; [discriminate|].
  inversion H; subst. simpl. repeat split; done.
Qed.

Lemma persist_raise output_path its w e w' :
  persist output_path (table_of its) w = (Raise e, w') ->
  open_for_write output_path (ext w) = Some e /\
  ext w' = ext w /\ files w' = files w /\ stdout w' = stdout w /\
  trace w' = trace w ++ [mkEvent (CToCsv (frame_of its) output_path) (Some e)].
Proof.
  unfold persist. rewrite DataFrame_of_table. unfold bind, eval, to_csv, print, ret.
  rewrite to_csv_records_table.
  destruct (open_for_write output_path (ext w)) eqn:Hopen; intros H; [|discriminate].
  inversion H; subst. simpl. repeat split; done.
Qed.

End LoopFacts.

Section RunFacts.
Context {E : Env}.

Lemma count_app p evs1 evs2 : count p (evs1 ++ evs2) = (count p evs1 + count p evs2)%nat.
Proof. unfold count. by rewrite List.filter_app, length_app. Qed.

Lemma count_none p evs :
  Forall (fun ev => p (ev_call ev) = false) evs -> count p evs = 0%nat.
Proof.
  unfold count. induction 1 as [|ev evs Hev _ IH]; simpl; [done|].
  by rewrite Hev.
Qed.

Lemma count_loop_events l its :
  count is_decode (loop_events l its) = length its /\
  count is_randn (loop_events l its) = 0%nat /\
  count is_optimize (loop_events l its) = 0%nat /\
  count is_to_csv (loop_events l its) = 0%nat /\
  count is_torch_load (loop_events l its) = 0%nat.
Proof.
  unfold loop_events.
  induction its as [|it its (IH1 & IH2 & IH3 & IH4 & IH5)]; [done|].
  change (concat (iter_events l <$> it :: its))
    with (iter_events l it ++ concat (iter_events l <$> its)).
  rewrite !count_app, IH1, IH2, IH3, IH4, IH5. done.
Qed.

Lemma clean_loop_events l its : clean (loop_events l its).
Proof.
  unfold loop_events, clean.
  induction its as [|it its IH]; simpl; [constructor|].
  repeat constructor. exact IH.
Qed.

(** Where a run can end: in the setup, in the loop, or in the write-out. *)
Lemma generate_run num_molecules model_dir output_path w r w' :
  generate num_molecules model_dir output_path w = (r, w') ->
  (exists e, r = Raise e /\ setup model_dir w = (Raise e, w')) \/
  (exists l w1, setup model_dir w = (Ok l, w1) /\
     ((exists e, r = Raise e /\ decode_loop num_molecules l w1 = (Raise e, w')) \/
      (exists its w2,
         decode_loop num_molecules l w1 = (Ok (table_of its), w2) /\
         length its = Z.to_nat num_molecules /\
         Forall (fun it => compute_property (it_smiles it) = Ok (it_score it)) its /\
         decoded l (ext w1) its (ext w2) /\
         files w2 = files w1 /\ stdout w2 = stdout w1 /\
         trace w2 = trace w1 ++ loop_events l its /\
         persist output_path (table_of its) w2 = (r, w')))).
Proof.
  rewrite generate_phases. intros H.
  apply bind_inv in H as [(e & H & ->)|(l & w1 & Hs & H)]; [left; eauto|].
  right. exists l, w1. split; [done|].
  apply bind_inv in H as [(e & H & ->)|(data & w2 & Hl & H)]; [left; eauto|].
  right. pose proof Hl as Hl'. unfold decode_loop in Hl'.
  apply (loop_ok l _ []) in Hl' as (its & Hlen & -> & Hall & Hf & Hso & Ht & Hd).
  exists its, w2. simpl in *. repeat split; done.
Qed.

(** A run that completes. *)
Lemma generate_ok num_molecules model_dir output_path w data w' :
  generate num_molecules model_dir output_path w = (Ok data, w') ->
  exists l w1 its,
    setup model_dir w = (Ok l, w1) /\
    length its = Z.to_nat num_molecules /\
    data = table_of its /\
    Forall (fun it => compute_property (it_smiles it) = Ok (it_score it)) its /\
    decoded l (ext w1) its (ext w') /\
    files w' = <[output_path := stored output_path (csv_text (csv_of its))]> (files w) /\
    stdout w' = stdout w ++ ["Generated molecules saved to " +:+ output_path] /\
    trace w' = trace w ++ setup_events model_dir l ++ loop_events l its
                       ++ [ok (CToCsv (frame_of its) output_path)].
Proof.
  intros H. apply generate_run in H as [(e & He & _)|(l & w1 & Hs & H)]; [discriminate|].
  destruct H as [(e & He & _)|(its & w2 & Hl & Hlen & Hall & Hd & Hf & Hso & Ht & Hp)];
    [discriminate|].
  apply persist_ok in Hp as (-> & Hopen & Hx & Hf' & Hso' & Ht').
  apply setup_ok in Hs as Hs'. destruct Hs' as (Hf0 & Hso0 & Ht0 & _).
  exists l, w1, its. rewrite Hx.
  repeat split; try done.
  - by rewrite Hf', Hf, Hf0.
  - by rewrite Hso', Hso, Hso0.
  - by rewrite Ht', Ht, Ht0, <- !app_assoc.
Qed.

End RunFacts.

(** ** Runs that raise, and what the decoder is given *)

Section AbortFacts.
Context {E : Env}.

Lemma clean_setup_events model_dir l : clean (setup_events model_dir l).
Proof. repeat constructor. Qed.

Lemma count_excluded (P q : Call -> bool) evs :
  (forall c, P c = true -> q c = false) ->
  Forall (fun ev => P (ev_call ev) = true) evs -> count q evs = 0%nat.
Proof.
  intros HPq Hall. apply count_none.
  eapply Forall_impl; [exact Hall|]. simpl. auto.
Qed.

Lemma setup_call_not_loop c : is_setup_call c = true -> is_loop_call c = false.
Proof. by destruct c. Qed.

Lemma loop_call_not_setup c : is_loop_call c = true -> is_setup_call c = false.
Proof. by destruct c. Qed.

Lemma propagated_last {A} evs (r : Result (Exn Obj) A) pre c e post :
  propagated evs r -> evs = pre ++ mkEvent c (Some e) :: post ->
  post = [] /\ r = Raise e.
Proof.
  intros [Hclean|(evs0 & c' & e' & -> & Hclean & ->)] Heq.
  - subst evs. apply Forall_app in Hclean as [_ Hc].
    inversion Hc; subst. discriminate.
  - destruct post as [|ev post _] using rev_ind.
    + apply app_inj_tail in Heq as [_ Hev]. inversion Hev; subst. done.
    + change (pre ++ mkEvent c (Some e) :: post ++ [ev])
        with (pre ++ (mkEvent c (Some e) :: post) ++ [ev]) in Heq.
      rewrite app_assoc in Heq.
      apply app_inj_tail in Heq as [-> _].
      apply Forall_app in Hclean as [_ Hc].
      inversion Hc; subst. discriminate.
Qed.

Lemma loop_events_loop_calls l its :
  Forall (fun ev => is_loop_call (ev_call ev) = true) (loop_events l its).
Proof.
  unfold loop_events. induction its as [|it its IH]; simpl; [constructor|].
  repeat constructor. exact IH.
Qed.

(** A run that raises. *)
Lemma generate_raise num_molecules model_dir output_path w e w' :
  generate num_molecules model_dir output_path w = (Raise e, w') ->
  files w' = files w /\
  exists evs,
    trace w' = trace w ++ evs /\
    propagated evs (@Raise _ Data e) /\
    Forall (fun ev => is_to_csv (ev_call ev) = true -> ev_raised ev = Some e) evs /\
    (Forall (fun ev => is_setup_call (ev_call ev) = true) evs \/
     exists l w1 post,
       setup model_dir w = (Ok l, w1) /\
       evs = setup_events model_dir l ++ post /\
       Forall (fun ev => is_setup_call (ev_call ev) = false) post).
Proof.
  intros H. apply generate_run in H as [(e0 & He & Hs)|(l & w1 & Hs & H)].
  - inversion He; subst e0.
    destruct (steps_setup _ _ _ _ Hs) as (Hf & _ & evs & Ht & Hall & Hp).
    split; [done|]. exists evs. split; [done|].
    split; [by apply (propagated_retype (A:=Locals))|]. split; [|by left].
    eapply Forall_impl; [exact Hall|]. simpl. intros ev H1 H2.
    destruct (ev_call ev); discriminate.
  - apply setup_ok in Hs as Hs'. destruct Hs' as (Hf0 & _ & Ht0 & _).
    destruct H as [(e0 & He & Hl)|(its & w2 & Hl & _ & _ & _ & Hf2 & _ & Ht2 & Hp)].
    + inversion He; subst e0.
      destruct (steps_decode_loop _ _ _ _ _ Hl) as (Hf & _ & evs & Ht & Hall & Hp).
      split; [congruence|].
      exists (setup_events model_dir l ++ evs).
      split; [by rewrite Ht, Ht0, app_assoc|].
      split; [apply propagated_app; [apply clean_setup_events|done]|].
      split.
      * apply Forall_app. split; [repeat constructor; discriminate|].
        eapply Forall_impl; [exact Hall|]. simpl. intros ev H1 H2.
        destruct (ev_call ev); discriminate.
      * right. exists l, w1, evs. repeat split; try done.
        eapply Forall_impl; [exact Hall|]. simpl. intros ev.
        apply loop_call_not_setup.
    + apply persist_raise in Hp as (_ & _ & Hf & _ & Ht).
      split; [congruence|].
      exists (setup_events model_dir l ++ loop_events l its
              ++ [mkEvent (CToCsv (frame_of its) output_path) (Some e)]).
      split; [by rewrite Ht, Ht2, Ht0, <- !app_assoc|].
      split.
      * right.
        exists (setup_events model_dir l ++ loop_events l its),
               (CToCsv (frame_of its) output_path), e.
        rewrite <- app_assoc. split; [done|]. split; [|done].
        apply clean_app; [apply clean_setup_events|apply clean_loop_events].
      * pose proof (loop_events_loop_calls l its) as Hloop.
        split.
        -- apply Forall_app. split; [repeat constructor; discriminate|].
           apply Forall_app. split; [|by repeat constructor].
           eapply Forall_impl; [exact Hloop|]. simpl. intros ev H1 H2.
           destruct (ev_call ev); discriminate.
        -- right. eexists l, w1, _. split; [done|]. split; [reflexivity|].
           apply Forall_app. split; [|by repeat constructor].
           eapply Forall_impl; [exact Hloop|]. simpl. intros ev.
           apply loop_call_not_setup.
Qed.



End AbortFacts.

(** ** Reading back what the csv writer wrote *)

Section ReaderFacts.

Lemma push_all_field f g fields more :
  push_all f ((g :: fields) :: more) = ((f +:+ g) :: fields) :: more.
Proof.
  induction f as [|c f IH]; [reflexivity|].
  cbn [push_all]. rewrite IH. reflexivity.
Qed.

Lemma str_app_nil (s : string) : s +:+ "" = s.
Proof. induction s as [|c s IH]; [reflexivity|]. change (String c (s +:+ "") = String c s). by rewrite IH. Qed.

Lemma str_app_assoc (a b c : string) : (a +:+ b) +:+ c = a +:+ (b +:+ c).
Proof.
  induction a as [|x a IH]; [reflexivity|].
  change (String x ((a +:+ b) +:+ c) = String x (a +:+ (b +:+ c))). by rewrite IH.
Qed.

Lemma csv_special_false c :
  csv_special c = false ->
  c <> "010"%char /\ c <> ","%char /\ c <> "034"%char.
Proof.
  unfold csv_special, dquote, newline. repeat destruct (decide _); try discriminate. done.
Qed.

Lemma read_plain_in f k :
  csv_needs_quote f = false ->
  read_from InField (f +:+ k) = push_all f <$> read_from InField k.
Proof.
  induction f as [|c f IH]; intros Hq.
  - change ("" +:+ k) with k. cbn [push_all]. by destruct (read_from InField k).
  - cbn [csv_needs_quote] in Hq. apply orb_false_iff in Hq as [Hc Hf].
    apply csv_special_false in Hc as (H1 & H2 & H3).
    change (String c f +:+ k) with (String c (f +:+ k)).
    cbn [read_from]. rewrite !decide_False by done.
    rewrite IH by done. cbn [push_all]. by destruct (read_from InField k).
Qed.

Lemma read_quoted_in f k :
  read_from InQuoted (csv_escape f +:+ String dquote k)
  = push_all f <$> read_from AfterQuote k.
Proof.
  induction f as [|c f IH].
  - change (read_from InQuoted (String dquote k) = push_all "" <$> read_from AfterQuote k).
    cbn [read_from push_all]. unfold dquote. rewrite decide_True by done.
    by destruct (read_from AfterQuote k).
  - cbn [csv_escape]. destruct (decide (c = dquote)) as [->|Hc].
    + change (read_from InQuoted (String dquote (String dquote (csv_escape f +:+ String dquote k))) = push_all (String dquote f) <$> read_from AfterQuote k).
      cbn [read_from]. unfold dquote at 1 2. rewrite !decide_True by done.
      rewrite decide_False by done. rewrite decide_False by done.
      rewrite decide_True by done. rewrite IH. cbn [push_all].
      by destruct (read_from AfterQuote k).
    + change (read_from InQuoted (String c (csv_escape f +:+ String dquote k)) = push_all (String c f) <$> read_from AfterQuote k).
      cbn [read_from]. rewrite decide_False by done. rewrite IH. cbn [push_all].
      by destruct (read_from AfterQuote k).
Qed.

Lemma read_field m f k out :
  m = AtRecord \/ m = AtField ->
  (forall mode, mode = AtField \/ mode = InField \/ mode = AfterQuote ->
                read_from mode k = out) ->
  (f = "" -> read_from m k = out) ->
  read_from m (csv_field f +:+ k) = push_all f <$> out.
Proof.
  intros Hm Hk Hempty. unfold csv_field.
  destruct (csv_needs_quote f) eqn:Hq.
  - unfold csv_quoted.
    change (String dquote (csv_escape f +:+ String dquote "") +:+ k)
      with (String dquote ((csv_escape f +:+ String dquote "") +:+ k)).
    rewrite str_app_assoc.
    change (String dquote "" +:+ k) with (String dquote k).
    assert (read_from m (String dquote (csv_escape f +:+ String dquote k))
            = read_from InQuoted (csv_escape f +:+ String dquote k)) as ->.
    { destruct Hm as [-> | ->]; cbn [read_from]; unfold dquote;
        rewrite !decide_False by done; by rewrite decide_True. }
    rewrite read_quoted_in. by rewrite Hk by auto.
  - destruct f as [|c f].
    + change ("" +:+ k) with k. rewrite Hempty by done.
      cbn [push_all]. by destruct out.
    + cbn [csv_needs_quote] in Hq. apply orb_false_iff in Hq as [Hc Hf].
      apply csv_special_false in Hc as (H1 & H2 & H3).
      change (String c f +:+ k) with (String c (f +:+ k)).
      assert (read_from m (String c (f +:+ k))
              = push c <$> read_from InField (f +:+ k)) as ->.
      { destruct Hm as [-> | ->]; cbn [read_from]; by rewrite !decide_False. }
      rewrite read_plain_in by done. rewrite Hk by auto.
      cbn [push_all]. by destruct out.
Qed.

Lemma read_fields fs : forall m k,
  m = AtRecord \/ m = AtField ->
  fs <> [] -> (m = AtField \/ fs <> [""]) ->
  read_from m (String.concat "," (csv_field <$> fs) +:+ String newline k)
  = cons fs <$> read_from AtRecord k.
Proof.
  induction fs as [|f fs IH]; intros m k Hm Hne Hsingle; [done|].
  destruct fs as [|g gs].
  - change (String.concat "," (csv_field <$> [f])) with (csv_field f).
    rewrite (read_field m f _ (cons [""] <$> read_from AtRecord k)); [|done| |].
    + destruct (read_from AtRecord k); [|done]. cbn.
      by rewrite push_all_field, str_app_nil.
    + intros mode [-> | [-> | ->]]; cbn [read_from]; unfold newline;
        by rewrite decide_True.
    + intros ->. destruct Hsingle as [-> | Hs]; [|done].
      cbn [read_from]. unfold newline. by rewrite decide_True.
  - change (String.concat "," (csv_field <$> f :: g :: gs))
      with (csv_field f +:+ ("," +:+ String.concat "," (csv_field <$> g :: gs))).
    rewrite str_app_assoc.
    change (("," +:+ String.concat "," (csv_field <$> g :: gs)) +:+ String newline k)
      with (String ","%char (String.concat "," (csv_field <$> g :: gs) +:+ String newline k)).
    rewrite (read_field m f _ (new_field <$> (cons (g :: gs) <$> read_from AtRecord k)));
      [|done| |].
    + destruct (read_from AtRecord k); [|done]. cbn.
      by rewrite push_all_field, str_app_nil.
    + intros mode Hmode. rewrite <- (IH AtField k) by auto.
      destruct Hmode as [-> | [-> | ->]]; cbn [read_from];
        rewrite decide_False by done; by rewrite decide_True.
    + intros _. rewrite <- (IH AtField k) by auto.
      destruct Hm as [-> | ->]; cbn [read_from];
        rewrite decide_False by done; by rewrite decide_True.
Qed.

Lemma read_record fs k :
  read_from AtRecord (csv_record fs +:+ String newline k)
  = cons fs <$> read_from AtRecord k.
Proof.
  destruct fs as [|f [|g gs]].
  - change (csv_record [] +:+ String newline k) with (String newline k).
    cbn [read_from]. unfold newline. by rewrite decide_True.
  - unfold csv_record. destruct (decide (f = "")) as [-> | Hf].
    + change (csv_quoted "" +:+ String newline k)
        with (String dquote (csv_escape "" +:+ String dquote (String newline k))).
      cbn [read_from]. unfold dquote at 1. rewrite !decide_False by done.
      rewrite decide_True by done. rewrite read_quoted_in.
      cbn [read_from]. unfold newline. rewrite decide_True by done.
      by destruct (read_from AtRecord k).
    + apply (read_fields [f]); [auto|done|]. right. congruence.
  - apply (read_fields (f :: g :: gs)); [auto|done|]. by right.
Qed.

(** Reading back what the csv writer wrote gives the fields written. *)
Lemma read_csv_text (table : list (list string)) :
  read_delimited_table (csv_text (csv_record <$> table)) = Some table.
Proof.
  unfold read_delimited_table.
  induction table as [|fs table IH]; [reflexivity|].
  change (csv_text (csv_record <$> fs :: table))
    with (csv_record fs +:+ String newline (csv_text (csv_record <$> table))).
  rewrite read_record. by rewrite IH.
Qed.

End ReaderFacts.

Section TableReading.
Context {E : Env}.

Lemma csv_of_records its :
  csv_of its = csv_record <$> (header_fields :: (fields_of its <$> its)).
Proof.
  unfold csv_of. cbn [fmap list_fmap]. f_equal. by rewrite <- list_fmap_compose.
Qed.

Lemma read_csv_of its :
  read_delimited_table (csv_text (csv_of its))
  = Some (header_fields :: (fields_of its <$> its)).
Proof. rewrite csv_of_records. apply read_csv_text. Qed.

Lemma stored_cases path text :
  stored path text = match infer_compression path with
                     | None => Plain text
                     | Some c => Packed c text
                     end.
Proof. reflexivity. Qed.

End TableReading.

(** ** The result table *)

Section TableProperties.
Context {E : Env}.

Lemma validity_two_valued (mol : option Mol) :
  validity_label mol = "Valid" \/ validity_label mol = "Invalid".
Proof. destruct mol; [by left|by right]. Qed.

Lemma count_setup_events model_dir l :
  count is_decode (setup_events model_dir l) = 0%nat /\
  count is_randn (setup_events model_dir l) = 1%nat /\
  count is_optimize (setup_events model_dir l) = 1%nat /\
  count is_to_csv (setup_events model_dir l) = 0%nat /\
  count is_torch_load (setup_events model_dir l) = 2%nat.
Proof. repeat split. Qed.

(** C1 (amended for compressed output paths). A completed run for a
    positive count N returns three columns of N entries each and has called
    the decoder exactly N times, whatever the parser made of the decoded
    strings.  The table it wrote reads back as the header row and exactly N
    data rows of three fields; the file at the output path holds that text
    as it is when the path has no compression extension, and packed by the
    compressor otherwise. *)
Theorem generate_row_count (num_molecules : Z) model_dir output_path w data w' :
  0 < num_molecules ->
  generate num_molecules model_dir output_path w = (Ok data, w') ->
  (exists ss vs qs,
     data = [("Generated_SMILES", ss); ("Validity", vs); ("QED", qs)] /\
     Z.of_nat (length ss) = num_molecules /\
     Z.of_nat (length vs) = num_molecules /\
     Z.of_nat (length qs) = num_molecules) /\
  (exists text table,
     files w' !! output_path
     = Some (match infer_compression output_path with
             | None => Plain text
             | Some c => Packed c text
             end) /\
     read_delimited_table text
     = Some (["Generated_SMILES"; "Validity"; "QED"] :: table) /\
     Z.of_nat (length table) = num_molecules /\
     Forall (fun fields => length fields = 3%nat) table) /\
  (exists evs,
     trace w' = trace w ++ evs /\
     Z.of_nat (count is_decode evs) = num_molecules).
Proof.
  intros Hpos H.
  apply generate_ok in H as (l & w1 & its & _ & Hlen & -> & _ & _ & Hf & _ & Ht).
  assert (Z.of_nat (length its) = num_molecules) as HN by lia.
  split; [|split].
  - eexists _, _, _. split; [reflexivity|]. by rewrite !length_fmap.
  - exists (csv_text (csv_of its)), (fields_of its <$> its).
    rewrite Hf, lookup_insert_eq. split; [reflexivity|].
    split; [apply read_csv_of|]. split; [by rewrite length_fmap|].
    apply Forall_fmap, Forall_forall. by intros it _.
  - eexists. split; [exact Ht|].
    rewrite !count_app.
    destruct (count_setup_events model_dir l) as (-> & _).
    destruct (count_loop_events l its) as (-> & _).
    unfold count. simpl. lia.
Qed.

(** C2 (amended for compressed output paths). After a completed run the
    text written starts with the line [Generated_SMILES,Validity,QED], the
    names being the keys of the returned mapping in order, and reads back
    as that header row followed by as many data rows as each returned column
    has entries.  The file at the output path holds that text as it is when
    the path has no compression extension, and packed by the compressor
    otherwise. *)
Theorem generate_file_matches_return num_molecules model_dir output_path w data w' :
  generate num_molecules model_dir output_path w = (Ok data, w') ->
  exists text body table,
    files w' !! output_path
    = Some (match infer_compression output_path with
            | None => Plain text
            | Some c => Packed c text
            end) /\
    text = "Generated_SMILES,Validity,QED" +:+ String "010"%char body /\
    read_delimited_table text = Some ((fst <$> data) :: table) /\
    fst <$> data = ["Generated_SMILES"; "Validity"; "QED"] /\
    Forall (fun kc => length (snd kc) = length table) data /\
    Forall (fun fields => length fields = length data) table.
Proof.
  intros H.
  apply generate_ok in H as (l & w1 & its & _ & Hlen & -> & _ & _ & Hf & _ & Ht).
  exists (csv_text (csv_of its)),
         (csv_text ((fun it => csv_record (fields_of its it)) <$> its)),
         (fields_of its <$> its).
  rewrite Hf, lookup_insert_eq. split; [reflexivity|].
  split; [reflexivity|]. split; [apply read_csv_of|]. split; [reflexivity|].
  split.
  - repeat constructor; simpl; by rewrite !length_fmap.
  - apply Forall_fmap, Forall_forall. by intros it _.
Qed.

(** C3. In a completed run the i-th entries of the three columns come
    from one string, the one the i-th decoder call returned: the validity
    entry is Valid when the parser returns a molecule for that string and
    Invalid when it returns none, and the QED entry is the score computed
    on that string.  The i-th data row of the table written holds the same
    string, the same label and that score as printed in its column. *)
Theorem generate_rows_consistent num_molecules model_dir output_path w data w' :
  generate num_molecules model_dir output_path w = (Ok data, w') ->
  exists l w1 its,
    setup model_dir w = (Ok l, w1) /\
    decoded l (ext w1) its (ext w') /\
    data =
      [ ("Generated_SMILES", (fun it => CStr (it_smiles it)) <$> its);
        ("Validity",
           (fun it => CStr (match MolFromSmiles (it_smiles it) with
                            | Some _ => "Valid"
                            | None => "Invalid"
                            end)) <$> its);
        ("QED", (fun it => CScore (it_score it)) <$> its) ] /\
    Forall (fun it => compute_property (it_smiles it) = Ok (it_score it)) its /\
    exists text,
      files w' !! output_path
      = Some (match infer_compression output_path with
              | None => Plain text
              | Some c => Packed c text
              end) /\
      read_delimited_table text
      = Some (["Generated_SMILES"; "Validity"; "QED"] ::
              ((fun it => [ it_smiles it;
                            match MolFromSmiles (it_smiles it) with
                            | Some _ => "Valid"
                            | None => "Invalid"
                            end;
                            render_score (it_score <$> its) (it_score it) ])
                 <$> its)).
Proof.
  intros H.
  apply generate_ok in H as (l & w1 & its & Hs & Hlen & -> & Hall & Hd & Hf & _ & Ht).
  exists l, w1, its. split; [done|]. split; [done|]. split; [reflexivity|].
  split; [done|].
  exists (csv_text (csv_of its)). rewrite Hf, lookup_insert_eq.
  split; [reflexivity|]. apply read_csv_of.
Qed.

(** C4 (amended for compressed output paths). For count 0, once the
    checkpoints are loaded and the latent vector optimised (lines 25-40
    return) and the output path can be opened, the run completes: it returns
    three empty columns and writes the header line and nothing else, as it
    is when the output path has no compression extension and packed by the
    compressor otherwise; the decoder is never called, while both
    checkpoint files were loaded and the optimisation ran. *)
Theorem generate_zero model_dir output_path w l w1 :
  setup model_dir w = (Ok l, w1) ->
  open_for_write output_path (ext w1) = None ->
  exists w',
    generate 0 model_dir output_path w
    = (Ok [("Generated_SMILES", []); ("Validity", []); ("QED", [])], w') /\
    files w'
    = <[output_path :=
          match infer_compression output_path with
          | None => Plain ("Generated_SMILES,Validity,QED" +:+ String "010"%char "")
          | Some c => Packed c ("Generated_SMILES,Validity,QED" +:+ String "010"%char "")
          end]> (files w) /\
    trace w' = trace w ++ setup_events model_dir l
                       ++ [ok (CToCsv (mkFrame ["Generated_SMILES"; "Validity"; "QED"] [])
                                      output_path)] /\
    count is_decode (setup_events model_dir l) = 0%nat /\
    count is_torch_load (setup_events model_dir l) = 2%nat /\
    count is_optimize (setup_events model_dir l) = 1%nat.
Proof.
  intros Hs Hopen.
  destruct (generate 0 model_dir output_path w) as [r w'] eqn:H.
  exists w'.
  assert (r = Ok (table_of [])) as ->.
  { rewrite generate_phases in H. unfold bind at 1 in H. rewrite Hs in H.
    unfold decode_loop in H. simpl in H. unfold bind at 1, ret in H.
    change empty_table with (table_of []) in H.
    unfold persist in H. rewrite DataFrame_of_table in H.
    unfold bind, eval, to_csv, print, ret in H. rewrite Hopen in H.
    by inversion H. }
  apply generate_ok in H as (l' & w1' & its & Hs' & Hlen & Hdata & _ & _ & Hf & _ & Ht).
  rewrite Hs in Hs'. inversion Hs'; subst l' w1'.
  destruct its; [|discriminate].
  split; [reflexivity|]. split; [exact Hf|]. split; [exact Ht|]. repeat split.
Qed.

(** C9 (amended for compressed output paths). A count of zero or less
    is no error: the run is the run for count 0, so when it completes the
    columns are empty, the decoder was never called, and what was written
    is the header line and nothing else, as it is when the output path has
    no compression extension and packed by the compressor otherwise. *)
Theorem generate_nonpositive (num_molecules : Z) model_dir output_path w :
  num_molecules <= 0 ->
  generate num_molecules model_dir output_path w = generate 0 model_dir output_path w /\
  forall data w',
    generate num_molecules model_dir output_path w = (Ok data, w') ->
    data = [("Generated_SMILES", []); ("Validity", []); ("QED", [])] /\
    files w' !! output_path
    = Some (match infer_compression output_path with
            | None => Plain ("Generated_SMILES,Validity,QED" +:+ String "010"%char "")
            | Some c => Packed c ("Generated_SMILES,Validity,QED" +:+ String "010"%char "")
            end) /\
    exists evs, trace w' = trace w ++ evs /\ count is_decode evs = 0%nat.
Proof.
  intros Hle.
  split.
  { unfold generate. replace (Z.to_nat num_molecules) with (Z.to_nat 0) by lia.
    reflexivity. }
  intros data w' H.
  apply generate_ok in H as (l & w1 & its & _ & Hlen & -> & _ & _ & Hf & _ & Ht).
  replace (Z.to_nat num_molecules) with 0%nat in Hlen by lia.
  destruct its; [|discriminate].
  split; [reflexivity|]. split; [by rewrite Hf, lookup_insert_eq|].
  eexists. split; [exact Ht|]. reflexivity.
Qed.

End TableProperties.

(** ** The latent vector *)

Section LatentProperties.
Context {E : Env}.

Lemma not_setup_counts post :
  Forall (fun ev => is_setup_call (ev_call ev) = false) post ->
  count is_randn post = 0%nat /\ count is_optimize post = 0%nat /\
  count is_torch_load post = 0%nat.
Proof.
  intros H. repeat split; apply count_none;
    (eapply Forall_impl; [exact H|]); simpl; intros ev; by destruct (ev_call ev).
Qed.

Lemma after_setup_not_setup l its c :
  Forall (fun ev => is_setup_call (ev_call ev) = false)
         (loop_events l its ++ [ok (CToCsv (frame_of its) c)]).
Proof.
  apply Forall_app. split; [|by repeat constructor].
  eapply Forall_impl; [apply loop_events_loop_calls|]. simpl.
  intros ev. apply loop_call_not_setup.
Qed.


(** C6. Whenever a run gets as far as decoding, or completes, its calls
    contain exactly one [torch.randn], for a 1 by latent_dim tensor with
    latent_dim read from the configuration object, followed by the move to
    the device and by exactly one optimisation call with 100 steps and
    learning rate 1e-2; no decoder call comes before them. *)
Theorem latent_sampled_then_optimized num_molecules model_dir output_path w r w' evs :
  generate num_molecules model_dir output_path w = (r, w') ->
  trace w' = trace w ++ evs ->
  is_ok r = true \/ count is_decode evs <> 0%nat ->
  exists l x pre post,
    Config_new (ext w) = (Ok (l_config l), x) /\
    evs = pre ++ [ ok (CRandn 1 (latent_dim (l_config l)));
                   ok (CTensorTo (l_noise l) (device (l_config l)));
                   ok (COptimize (l_model l) (l_initial_z l) 100 (1 # 100)) ] ++ post /\
    count is_randn pre = 0%nat /\ count is_optimize pre = 0%nat /\
    count is_decode pre = 0%nat /\
    count is_randn post = 0%nat /\ count is_optimize post = 0%nat.
Proof.
  intros H Ht Hpast.
  assert (exists l w1 post,
            setup model_dir w = (Ok l, w1) /\
            evs = setup_events model_dir l ++ post /\
            Forall (fun ev => is_setup_call (ev_call ev) = false) post)
    as (l & w1 & post & Hs & -> & Hpost).
  { destruct r as [data|e].
    - apply generate_ok in H as (l & w1 & its & Hs & _ & _ & _ & _ & _ & _ & Ht').
      rewrite Ht' in Ht. apply app_inv_head in Ht. subst evs.
      eexists l, w1, _. split; [done|]. split; [reflexivity|].
      apply after_setup_not_setup.
    - apply generate_raise in H as (_ & evs' & Ht' & _ & _ & Hcase).
      rewrite Ht' in Ht. apply app_inv_head in Ht. subst evs'.
      destruct Hcase as [Hall|Hcase]; [|exact Hcase].
      destruct Hpast as [Hok|Hdec]; [discriminate|].
      exfalso. apply Hdec. apply (count_excluded is_setup_call); [|exact Hall].
      intros c. by destruct c. }
  apply setup_ok in Hs as (_ & _ & _ & _ & [x Hcfg] & _).
  destruct (not_setup_counts post Hpost) as (Hr & Ho & _).
  exists l, x, (firstn 6 (setup_events model_dir l)), post.
  split; [exact Hcfg|]. split; [by rewrite app_assoc|].
  repeat split; done.
Qed.

End LatentProperties.

(** ** Failures *)

Section FailureProperties.
Context {E : Env}.




(** C8. The table is written by one call, the last of a completed run,
    after all N decoder calls.  A run that raises leaves the files as they
    were and contains no write that succeeded; and whichever call raised,
    that call is the last of the run and its exception is the run's. *)
Theorem persisted_once_at_the_end num_molecules model_dir output_path w r w' :
  generate num_molecules model_dir output_path w = (r, w') ->
  exists evs,
    trace w' = trace w ++ evs /\
    (forall data, r = Ok data ->
       exists pre df,
         evs = pre ++ [ok (CToCsv df output_path)] /\
         count is_to_csv pre = 0%nat /\
         count is_decode pre = Z.to_nat num_molecules /\
         files w' = <[output_path := stored output_path (csv_text (to_csv_records df))]>
                      (files w) /\
         length (rows df) = Z.to_nat num_molecules) /\
    (forall e, r = Raise e ->
       files w' = files w /\
       Forall (fun ev => is_to_csv (ev_call ev) = true -> ev_raised ev = Some e) evs) /\
    (forall pre c e post,
       evs = pre ++ mkEvent c (Some e) :: post -> post = [] /\ r = Raise e).
Proof.
  intros H. destruct r as [data|e].
  - apply generate_ok in H as (l & w1 & its & _ & Hlen & -> & _ & _ & Hf & _ & Ht).
    eexists. split; [exact Ht|]. split; [|split].
    + intros data _.
      exists (setup_events model_dir l ++ loop_events l its), (frame_of its).
      split; [by rewrite <- app_assoc|].
      rewrite !count_app.
      destruct (count_loop_events l its) as (-> & _ & _ & -> & _).
      split; [reflexivity|]. split; [simpl; lia|].
      split; [by rewrite to_csv_records_table|].
      simpl. by rewrite length_fmap.
    + intros e He. discriminate.
    + intros pre c e post Heq.
      assert (propagated (setup_events model_dir l ++ loop_events l its
                          ++ [ok (CToCsv (frame_of its) output_path)])
                         (Ok (table_of its))) as Hp.
      { left. apply clean_app; [apply clean_setup_events|].
        apply clean_app; [apply clean_loop_events|repeat constructor]. }
      exact (propagated_last _ _ _ _ _ _ Hp Heq).
  - apply generate_raise in H as (Hf & evs & Ht & Hp & Hcsv & _).
    exists evs. split; [exact Ht|]. split; [|split].
    + intros data Hd. discriminate.
    + intros e' He. inversion He; subst e'. split; [exact Hf|exact Hcsv].
    + intros pre c e' post Heq. by apply (propagated_last _ _ _ _ _ _ Hp) in Heq.
Qed.

End FailureProperties.

(** ** The pad symbol *)

(** One step of a run whose outcome is known. *)
Ltac known_call H Hres :=
  let Hc := fresh "Hc" in
  let Hx := fresh "Hx" in
  apply bind_inv in H as [(? & Hc & ?)|(? & ? & Hc & H)];
  apply call_inv in Hc as (Hx & ? & ? & ?);
  rewrite Hres in Hx; inversion Hx; subst; clear Hx;
  cbv beta zeta in H.

Ltac known_eval H Hres :=
  let Hc := fresh "Hc" in
  let Hr := fresh "Hr" in
  apply bind_inv in H as [(? & Hc & ?)|(? & ? & Hc & H)];
  apply eval_inv in Hc as [Hr ?];
  rewrite Hres in Hr; inversion Hr; subst; clear Hr;
  cbv beta zeta in H.

Section PadProperties.
Context {E : Env}.

Lemma setup_to_lookup model_dir w config x1 model_info x2 vocab char_to_idx idx_to_char
    start_token end_token pad_token max_length vocab_size max_len r w' :
  Config_new (ext w) = (Ok config, x1) ->
  torch_load (os_path_join model_dir "model_info.pth") x1 = (Ok model_info, x2) ->
  py_getitem model_info (PStr "vocab") = Ok vocab ->
  py_getitem model_info (PStr "char_to_idx") = Ok char_to_idx ->
  py_getitem model_info (PStr "idx_to_char") = Ok idx_to_char ->
  py_getitem model_info (PStr "start_token") = Ok start_token ->
  py_getitem model_info (PStr "end_token") = Ok end_token ->
  py_getitem model_info (PStr "pad_token") = Ok pad_token ->
  py_getitem model_info (PStr "max_length") = Ok max_length ->
  py_len vocab = Ok vocab_size ->
  py_sub max_length 1 = Ok max_len ->
  setup model_dir w = (r, w') ->
  match py_getitem char_to_idx pad_token with
  | Raise e =>
      r = Raise e /\ files w' = files w /\
      trace w' = trace w ++
        [ok CConfig; ok (CTorchLoad (os_path_join model_dir "model_info.pth"))]
  | Ok pad_idx =>
      exists raised evs,
        trace w' = trace w ++
          [ ok CConfig; ok (CTorchLoad (os_path_join model_dir "model_info.pth"));
            mkEvent (CVAE vocab_size (embed_size config) (latent_dim config)
                          max_len pad_idx) raised ] ++ evs
  end.
Proof.
  intros Hcfg Hload Hv Hc2i Hi2c Hst Hen Hpad Hmax Hlen Hsub H.
  unfold setup in H.
  known_call H Hcfg.
  known_call H Hload.
  known_eval H Hv. known_eval H Hc2i. known_eval H Hi2c. known_eval H Hst.
  known_eval H Hen. known_eval H Hpad. known_eval H Hmax. known_eval H Hlen.
  known_eval H Hsub.
  apply bind_inv in H as [(e & Hc & ->)|(pad_idx & w2 & Hc & H)];
    apply eval_inv in Hc as [Hr ->]; rewrite <- Hr.
  - split; [reflexivity|]. split; chain.
  - cbv beta zeta in H.
    apply bind_inv in H as [(e & Hc & ->)|(vae & w3 & Hc & H)];
      apply call_inv in Hc as (_ & _ & _ & Ht3).
    + exists (Some e), []. rewrite app_nil_r. chain.
    + match type of H with
      | ?k w3 = _ => assert (steps is_setup_call k) as Hrest by step_through
      end.
      destruct (Hrest _ _ _ H) as (_ & _ & evs & Ht & _).
      exists None, evs. rewrite Ht, Ht3. chain.
Qed.

(** What follows a completed setup only adds to the trace. *)
Lemma after_setup_extends num_molecules output_path l w1 r w' :
  bind (decode_loop num_molecules l) (persist output_path) w1 = (r, w') ->
  exists evs, trace w' = trace w1 ++ evs.
Proof.
  intros H. apply bind_inv in H as [(e & Hl & ->)|(data & w2 & Hl & Hp)].
  - destruct (steps_decode_loop _ _ _ _ _ Hl) as (_ & _ & evs & Ht & _). eauto.
  - pose proof Hl as Hl'. unfold decode_loop in Hl'.
    apply (loop_ok l _ []) in Hl' as (its & _ & -> & _ & _ & _ & Ht & _).
    simpl in Hp. destruct r as [data|e].
    + apply persist_ok in Hp as (_ & _ & _ & _ & _ & Ht').
      eexists. rewrite Ht', Ht, <- app_assoc. reflexivity.
    + apply persist_raise in Hp as (_ & _ & _ & _ & Ht').
      eexists. rewrite Ht', Ht, <- app_assoc. reflexivity.
Qed.

(** C10. With a metadata checkpoint that loads and has its seven entries,
    the pad symbol must be a key of the symbol-to-index mapping.  If it is,
    the lookup returns its index and the run goes on to build the network
    with that index.  If it is not, the run ends there with the KeyError of
    that lookup: only the configuration and the metadata checkpoint have
    been touched, no weights were loaded and nothing was decoded or
    written. *)
Theorem pad_symbol_lookup num_molecules model_dir output_path w config x1 model_info x2
    vocab (mapping : gmap Key (PyVal Obj)) idx_to_char start_token end_token
    (pad : string) max_length vocab_size max_len :
  Config_new (ext w) = (Ok config, x1) ->
  torch_load (os_path_join model_dir "model_info.pth") x1 = (Ok model_info, x2) ->
  py_getitem model_info (PStr "vocab") = Ok vocab ->
  py_getitem model_info (PStr "char_to_idx") = Ok (PDict mapping) ->
  py_getitem model_info (PStr "idx_to_char") = Ok idx_to_char ->
  py_getitem model_info (PStr "start_token") = Ok start_token ->
  py_getitem model_info (PStr "end_token") = Ok end_token ->
  py_getitem model_info (PStr "pad_token") = Ok (PStr pad) ->
  py_getitem model_info (PStr "max_length") = Ok max_length ->
  py_len vocab = Ok vocab_size ->
  py_sub max_length 1 = Ok max_len ->
  (forall pad_idx,
     mapping !! KStr pad = Some pad_idx ->
     py_getitem (PDict mapping) (PStr pad) = Ok pad_idx /\
     exists raised evs,
       trace (snd (generate num_molecules model_dir output_path w)) =
       trace w ++
         [ ok CConfig; ok (CTorchLoad (os_path_join model_dir "model_info.pth"));
           mkEvent (CVAE vocab_size (embed_size config) (latent_dim config)
                         max_len pad_idx) raised ] ++ evs) /\
  (mapping !! KStr pad = None ->
     fst (generate num_molecules model_dir output_path w) = Raise (KeyError (PStr pad)) /\
     files (snd (generate num_molecules model_dir output_path w)) = files w /\
     trace (snd (generate num_molecules model_dir output_path w)) =
     trace w ++
       [ok CConfig; ok (CTorchLoad (os_path_join model_dir "model_info.pth"))]).
Proof.
  intros Hcfg Hload Hv Hc2i Hi2c Hst Hen Hpad Hmax Hlen Hsub.
  destruct (generate num_molecules model_dir output_path w) as [r w'] eqn:H.
  rewrite generate_phases in H. simpl.
  apply bind_inv in H as [(e & Hs & ->)|(l & w1 & Hs & H)];
    pose proof (setup_to_lookup _ _ _ _ _ _ _ _ _ _ _ _ _ _ _ _ _
                  Hcfg Hload Hv Hc2i Hi2c Hst Hen Hpad Hmax Hlen Hsub Hs) as Hlook;
    simpl in Hlook.
  - split.
    + intros pad_idx Hin. rewrite Hin in Hlook |- *. split; [reflexivity|exact Hlook].
    + intros Hout. rewrite Hout in Hlook.
      destruct Hlook as (He & Hf & Ht). inversion He; subst. done.
  - apply after_setup_extends in H as [evs2 Ht2]. split.
    + intros pad_idx Hin. rewrite Hin in Hlook |- *. split; [reflexivity|].
      destruct Hlook as (raised & evs & Ht).
      exists raised, (evs ++ evs2). rewrite Ht2, Ht. chain.
    + intros Hout. rewrite Hout in Hlook. destruct Hlook as (He & _). discriminate.
Qed.

End PadProperties.

(** ** The properties above on runs of the small instances *)

Example py_len_counts_code_points :
  @py_len Toy.env (PStr (String "067" (String "195" (String "169" "")))) = Ok 2.
Proof. reflexivity. Qed.

Example py_getitem_code_point :
  @py_getitem Toy.env (PStr (String "067" (String "195" (String "169" ""))))
                      (PInt (-1))
  = Ok (PStr (String "195" (String "169" ""))).
Proof. reflexivity. Qed.

Example read_quoted_field :
  read_delimited_table ("x," +:+ csv_quoted "a,b" +:+ String newline "y,")
  = Some [["x"; "a,b"]; ["y"; ""]].
Proof. reflexivity. Qed.

Example infer_compression_plain : infer_compression "out.csv" = None.
Proof. reflexivity. Qed.

Example infer_compression_any_case : infer_compression "OUT.CSV.GZ" = Some Gzip.
Proof. reflexivity. Qed.

Example infer_compression_first_match : infer_compression "mols.tar.gz" = Some Tar.
Proof. reflexivity. Qed.

Lemma generate_row_count_witness :
  exists data w' text table,
    Toy.run 3 = (Ok data, w') /\
    files w' !! "out.csv" = Some (Plain text) /\
    read_delimited_table text
    = Some (["Generated_SMILES"; "Validity"; "QED"] :: table) /\
    Z.of_nat (length table) = 3.
Proof.
  assert (is_ok (fst (Toy.run 3)) = true) as Hok by (vm_compute; reflexivity).
  destruct (Toy.run 3) as [[data|e] w'] eqn:Hrun; [clear Hok|discriminate].
  destruct (generate_row_count (E:=Toy.env) 3 "ckpt" "out.csv" Toy.w0 data w')
    as (_ & (text & table & H1 & H2 & H3 & _) & _); [lia|exact Hrun|].
  exists data, w', text, table.
  split; [reflexivity|]. split; [exact H1|]. split; [exact H2|exact H3].
Defined.

(** C1 as stated fails for an output path with a compression
    extension: the run completes, and the file is not a text of a header
    and three data rows. *)
Lemma generate_row_count_counterexample :
  exists data w',
    generate (E:=Toy.env) 3 "ckpt" "out.csv.gz" Toy.w0 = (Ok data, w') /\
    ~ exists text table,
        files w' !! "out.csv.gz" = Some (Plain text) /\
        read_delimited_table text
        = Some (["Generated_SMILES"; "Validity"; "QED"] :: table) /\
        Z.of_nat (length table) = 3.
Proof.
  assert (is_ok (fst (generate (E:=Toy.env) 3 "ckpt" "out.csv.gz" Toy.w0)) = true)
    as Hok by (vm_compute; reflexivity).
  destruct (generate (E:=Toy.env) 3 "ckpt" "out.csv.gz" Toy.w0)
    as [[data|e] w'] eqn:Hrun; [clear Hok|discriminate].
  exists data, w'. split; [reflexivity|].
  apply generate_ok in Hrun as (l & w1 & its & _ & _ & _ & _ & _ & Hf & _).
  intros (text & table & Hfile & _).
  rewrite Hf, lookup_insert_eq in Hfile.
  change (stored "out.csv.gz" (csv_text (csv_of its)))
    with (Packed Gzip (csv_text (csv_of its))) in Hfile.
  discriminate Hfile.
Qed.

Lemma generate_file_matches_return_witness :
  exists data w' text body table,
    Toy.run 2 = (Ok data, w') /\
    files w' !! "out.csv" = Some (Plain text) /\
    text = "Generated_SMILES,Validity,QED" +:+ String "010"%char body /\
    read_delimited_table text = Some ((fst <$> data) :: table) /\
    Forall (fun kc => length (snd kc) = length table) data.
Proof.
  assert (is_ok (fst (Toy.run 2)) = true) as Hok by (vm_compute; reflexivity).
  destruct (Toy.run 2) as [[data|e] w'] eqn:Hrun; [clear Hok|discriminate].
  destruct (generate_file_matches_return (E:=Toy.env) 2 "ckpt" "out.csv" Toy.w0 data w' Hrun)
    as (text & body & table & H1 & H2 & H3 & _ & H4 & _).
  exists data, w', text, body, table.
  split; [reflexivity|]. split; [exact H1|]. split; [exact H2|].
  split; [exact H3|exact H4].
Defined.

(** C2 as stated fails for an output path with a compression
    extension: the run completes, and the file is not a text that starts
    with the header line. *)
Lemma generate_file_matches_return_counterexample :
  exists data w',
    generate (E:=Toy.env) 2 "ckpt" "molecules.zip" Toy.w0 = (Ok data, w') /\
    ~ exists text body,
        files w' !! "molecules.zip" = Some (Plain text) /\
        text = "Generated_SMILES,Validity,QED" +:+ String "010"%char body.
Proof.
  assert (is_ok (fst (generate (E:=Toy.env) 2 "ckpt" "molecules.zip" Toy.w0)) = true)
    as Hok by (vm_compute; reflexivity).
  destruct (generate (E:=Toy.env) 2 "ckpt" "molecules.zip" Toy.w0)
    as [[data|e] w'] eqn:Hrun; [clear Hok|discriminate].
  exists data, w'. split; [reflexivity|].
  apply generate_ok in Hrun as (l & w1 & its & _ & _ & _ & _ & _ & Hf & _).
  intros (text & body & Hfile & _).
  rewrite Hf, lookup_insert_eq in Hfile.
  change (stored "molecules.zip" (csv_text (csv_of its)))
    with (Packed Zip (csv_text (csv_of its))) in Hfile.
  discriminate Hfile.
Qed.

Lemma generate_rows_consistent_witness :
  exists data w' its,
    Toy.run 2 = (Ok data, w') /\
    data = @table_of Toy.env its /\
    Forall (fun it => @compute_property Toy.env (it_smiles it) = Ok (it_score it)) its.
Proof.
  assert (is_ok (fst (Toy.run 2)) = true) as Hok by (vm_compute; reflexivity).
  destruct (Toy.run 2) as [[data|e] w'] eqn:Hrun; [clear Hok|discriminate].
  destruct (generate_rows_consistent (E:=Toy.env) 2 "ckpt" "out.csv" Toy.w0 data w' Hrun)
    as (l & w1 & its & _ & _ & Hdata & Hall & _).
  exists data, w', its. split; [reflexivity|]. split; [exact Hdata|exact Hall].
Defined.

Lemma generate_zero_witness :
  exists w',
    Toy.run 0 = (Ok [("Generated_SMILES", []); ("Validity", []); ("QED", [])], w') /\
    files w'
    = {[ "out.csv" := Plain ("Generated_SMILES,Validity,QED" +:+ String "010"%char "") ]}.
Proof.
  assert (is_ok (fst (@setup Toy.env "ckpt" Toy.w0)) = true) as Hok
    by (vm_compute; reflexivity).
  destruct (@setup Toy.env "ckpt" Toy.w0) as [[l|e] w1] eqn:Hs; [clear Hok|discriminate].
  destruct (generate_zero (E:=Toy.env) "ckpt" "out.csv" Toy.w0 l w1 Hs)
    as (w' & Hrun & Hfile & _); [reflexivity|].
  exists w'. split; [exact Hrun|exact Hfile].
Defined.

(** C4 as stated fails for an output path with a compression
    extension: the run for count 0 completes, and the file is not the
    header line. *)
Lemma generate_zero_counterexample :
  exists w',
    generate (E:=Toy.env) 0 "ckpt" "empty.csv.bz2" Toy.w0
    = (Ok [("Generated_SMILES", []); ("Validity", []); ("QED", [])], w') /\
    files w' !! "empty.csv.bz2"
    <> Some (Plain ("Generated_SMILES,Validity,QED" +:+ String "010"%char "")).
Proof.
  assert (is_ok (fst (generate (E:=Toy.env) 0 "ckpt" "empty.csv.bz2" Toy.w0)) = true)
    as Hok by (vm_compute; reflexivity).
  destruct (generate (E:=Toy.env) 0 "ckpt" "empty.csv.bz2" Toy.w0)
    as [[data|e] w'] eqn:Hrun; [clear Hok|discriminate].
  exists w'.
  apply generate_ok in Hrun as (l & w1 & its & _ & Hlen & -> & _ & _ & Hf & _).
  destruct its; [|discriminate]. split; [reflexivity|].
  rewrite Hf, lookup_insert_eq.
  change (stored "empty.csv.bz2" (csv_text (csv_of [])))
    with (Packed Bz2 (csv_text (@csv_of Toy.env []))).
  discriminate.
Qed.

Lemma generate_nonpositive_witness :
  -3 <= 0 /\ Toy.run (-3) = Toy.run 0 /\
  exists w',
    Toy.run (-3) = (Ok [("Generated_SMILES", []); ("Validity", []); ("QED", [])], w') /\
    files w' !! "out.csv"
    = Some (Plain ("Generated_SMILES,Validity,QED" +:+ String "010"%char "")).
Proof.
  assert (-3 <= 0) as Hle by lia.
  destruct (generate_nonpositive (E:=Toy.env) (-3) "ckpt" "out.csv" Toy.w0 Hle)
    as [Hsame Hdone].
  split; [exact Hle|]. split; [exact Hsame|].
  assert (is_ok (fst (Toy.run (-3))) = true) as Hok by (vm_compute; reflexivity).
  unfold Toy.run in *.
  destruct (generate (E:=Toy.env) (-3) "ckpt" "out.csv" Toy.w0)
    as [[data|e] w'] eqn:Hrun; [clear Hok|discriminate].
  destruct (Hdone data w' eq_refl) as (-> & Hfile & _).
  exists w'. split; [reflexivity|exact Hfile].
Defined.

(** C9 as stated fails for an output path with a compression
    extension: the run for a negative count completes, and the file is not
    the header line. *)
Lemma generate_nonpositive_counterexample :
  exists data w',
    generate (E:=Toy.env) (-2) "ckpt" "none.csv.xz" Toy.w0 = (Ok data, w') /\
    files w' !! "none.csv.xz"
    <> Some (Plain ("Generated_SMILES,Validity,QED" +:+ String "010"%char "")).
Proof.
  assert (is_ok (fst (generate (E:=Toy.env) (-2) "ckpt" "none.csv.xz" Toy.w0)) = true)
    as Hok by (vm_compute; reflexivity).
  destruct (generate (E:=Toy.env) (-2) "ckpt" "none.csv.xz" Toy.w0)
    as [[data|e] w'] eqn:Hrun; [clear Hok|discriminate].
  exists data, w'. split; [reflexivity|].
  apply generate_ok in Hrun as (l & w1 & its & _ & _ & _ & _ & _ & Hf & _).
  rewrite Hf, lookup_insert_eq.
  change (stored "none.csv.xz" (csv_text (csv_of its)))
    with (Packed Xz (csv_text (csv_of its))).
  discriminate.
Qed.



Lemma latent_sampled_then_optimized_witness :
  exists (data : @Data Toy.env) (w' : @World Toy.env) (l : @Locals Toy.env) pre post,
    Toy.run 2 = (Ok data, w') /\
    trace w' = pre ++ [ ok (CRandn 1 (latent_dim (l_config l)));
                        ok (CTensorTo (l_noise l) (device (l_config l)));
                        ok (COptimize (l_model l) (l_initial_z l) 100 (1 # 100)) ] ++ post /\
    count is_randn pre = 0%nat /\ count is_randn post = 0%nat.
Proof.
  assert (is_ok (fst (Toy.run 2)) = true) as Hok by (vm_compute; reflexivity).
  destruct (Toy.run 2) as [[data|e] w'] eqn:Hrun; [clear Hok|discriminate].
  destruct (latent_sampled_then_optimized (E:=Toy.env) 2 "ckpt" "out.csv" Toy.w0
              (Ok data) w' (trace w') Hrun eq_refl (or_introl eq_refl))
    as (l & x & pre & post & _ & Hevs & Hr1 & _ & _ & Hr2 & _).
  exists data, w', l, pre, post. auto.
Defined.



Lemma persisted_once_at_the_end_witness :
  (exists (data : @Data Toy.env) (w' : @World Toy.env) pre records,
     Toy.run 2 = (Ok data, w') /\
     trace w' = pre ++ [ok (CToCsv records "out.csv")] /\
     length (rows records) = 2%nat) /\
  (exists e (w' : @World Toy.env_failing),
     generate (E:=Toy.env_failing) 3 "ckpt" "out.csv" (mkWorld ((0%nat, 0) : @Ext Toy.env_failing) ∅ [] [])
     = (Raise e, w') /\
     files w' = ∅).
Proof.
  split.
  - assert (is_ok (fst (Toy.run 2)) = true) as Hok by (vm_compute; reflexivity).
    destruct (Toy.run 2) as [[data|e] w'] eqn:Hrun; [clear Hok|discriminate].
    destruct (persisted_once_at_the_end (E:=Toy.env) 2 "ckpt" "out.csv" Toy.w0 (Ok data) w' Hrun)
      as (evs & Ht & Hdone & _).
    destruct (Hdone data eq_refl) as (pre & records & Hevs & _ & _ & _ & Hlen).
    exists data, w', pre, records. split; [reflexivity|].
    split; [|exact Hlen]. rewrite Ht, Hevs. reflexivity.
  - pose (w := mkWorld (E:=Toy.env_failing) ((0%nat, 0) : @Ext Toy.env_failing) ∅ [] []).
    assert (is_ok (fst (generate (E:=Toy.env_failing) 3 "ckpt" "out.csv" w)) = false)
      as Hok by (vm_compute; reflexivity).
    fold w.
    destruct (generate (E:=Toy.env_failing) 3 "ckpt" "out.csv" w) as [[data|e] w'] eqn:Hrun;
      [discriminate|clear Hok].
    destruct (persisted_once_at_the_end (E:=Toy.env_failing) 3 "ckpt" "out.csv" w (Raise e) w' Hrun)
      as (evs & _ & _ & Hraise & _).
    destruct (Hraise e eq_refl) as [Hf _].
    exists e, w'. split; [reflexivity|exact Hf].
Defined.

Lemma pad_symbol_lookup_witness :
  @py_getitem Toy.env (PDict Toy.toy_mapping) (PStr "_") = Ok (PInt 3) /\
  fst (generate (E:=Toy.env_no_pad) 2 "ckpt" "out.csv"
         (mkWorld ((0%nat, 0) : @Ext Toy.env_no_pad) ∅ [] []))
  = Raise (KeyError (PStr "x")).
Proof.
  split.
  - destruct (pad_symbol_lookup (E:=Toy.env) 2 "ckpt" "out.csv" Toy.w0
                (mkConfig 64 8 tt) (0%nat, 0) (Toy.toy_info "_") (0%nat, 0) Toy.toy_vocab
                Toy.toy_mapping Toy.toy_idx_to_char (PStr "<") (PStr ">") "_"
                (PInt 10) 4 (PInt 9))
      as [Hin _]; [vm_compute; reflexivity ..|].
    destruct (Hin (PInt 3)) as [Hlook _]; [vm_compute; reflexivity|exact Hlook].
  - destruct (pad_symbol_lookup (E:=Toy.env_no_pad) 2 "ckpt" "out.csv"
                (mkWorld ((0%nat, 0) : @Ext Toy.env_no_pad) ∅ [] [])
                (mkConfig 64 8 tt) (0%nat, 0) (Toy.toy_info "x") (0%nat, 0) Toy.toy_vocab
                Toy.toy_mapping Toy.toy_idx_to_char (PStr "<") (PStr ">") "x"
                (PInt 10) 4 (PInt 9))
      as [_ Hout]; [vm_compute; reflexivity ..|].
    destruct Hout as [Hraise _]; [vm_compute; reflexivity|exact Hraise].
Defined.

(** * Further properties of [generate] *)

(** ** Metadata that cannot be used *)

Section MetadataFacts.
Context {E : Env}.

(** The world after [Config()] and the first [torch.load]. *)
Lemma generate_metadata_error num_molecules model_dir output_path w config x1
    model_info x2 e :
  Config_new (ext w) = (Ok config, x1) ->
  torch_load (os_path_join model_dir "model_info.pth") x1 = (Ok model_info, x2) ->
  read_metadata model_info = Raise e ->
  generate num_molecules model_dir output_path w
  = (Raise e,
     mkWorld x2 (files w) (stdout w)
       (trace w ++ [ok CConfig; ok (CTorchLoad (os_path_join model_dir "model_info.pth"))])).
Proof.
  intros Hcfg Hload Hread.
  rewrite generate_phases. unfold bind at 1.
  assert (setup model_dir w
          = (Raise e,
             mkWorld x2 (files w) (stdout w)
               (trace w ++ [ok CConfig;
                            ok (CTorchLoad (os_path_join model_dir "model_info.pth"))])))
    as ->; [|reflexivity].
  unfold setup, bind, call, log. rewrite Hcfg. simpl. rewrite Hload. simpl.
  rewrite <- app_assoc. simpl.
  unfold read_metadata, and_then in Hread. unfold eval.
  repeat match type of Hread with
         | (match ?r with _ => _ end) = _ =>
             destruct r; [|inversion Hread; subst; reflexivity]
         end.
  discriminate.
Qed.

Lemma read_metadata_missing_key (d : gmap Key (PyVal Obj)) present key rest :
  metadata_keys = present ++ key :: rest ->
  Forall (fun k => is_Some (d !! KStr k)) present ->
  d !! KStr key = None ->
  read_metadata (PDict d) = Raise (KeyError (PStr key)).
Proof.
  intros Hkeys Hall Hnone. unfold read_metadata, metadata_keys in *.
  repeat (destruct present as [|? present];
          [ inversion Hkeys; subst; simpl; rewrite Hnone; reflexivity
          | inversion Hkeys; subst; clear Hkeys;
            match goal with H : Forall _ (_ :: _) |- _ =>
              let Hv := fresh "Hv" in
              apply Forall_cons in H as [[? Hv] H]; simpl; rewrite Hv; simpl
            end;
            match goal with H : _ = present ++ _ |- _ => rename H into Hkeys end ]).
Qed.

End MetadataFacts.

(** ** Where a run can end *)

(** One step of a run that raised: either this step raised, which closes
    the goal, or it returned and the run went on. *)
Ltac clean_contra Hcl :=
  exfalso; unfold clean in Hcl;
  repeat match type of Hcl with
         | Forall _ (_ :: _) => apply Forall_cons in Hcl as [? Hcl]
         end;
  simpl in *; discriminate.

Ltac raised_call H :=
  let Hc := fresh "Hc" in
  let Heq := fresh "Heq" in
  let Ht := fresh "Ht" in
  let Hcl := fresh "Hcl" in
  apply bind_inv in H as [(? & Hc & Heq)|(? & ? & Hc & H)];
  apply call_inv in Hc as (_ & _ & _ & Ht);
  [ eexists; split; [chain|]; split;
    [ intros Hcl; clean_contra Hcl | simpl; eexists; reflexivity ]
  | cbv beta zeta in H ].

Ltac raised_eval H :=
  let Hc := fresh "Hc" in
  let Heq := fresh "Heq" in
  apply bind_inv in H as [(? & Hc & Heq)|(? & ? & Hc & H)];
  apply eval_inv in Hc as [_ ->];
  [ eexists; split; [chain|]; split;
    [ intros _; reflexivity | simpl; eexists; reflexivity ]
  | cbv beta zeta in H ].

Section EndingFacts.
Context {E : Env}.

Lemma setup_raise_detail model_dir w e w' :
  setup model_dir w = (Raise e, w') ->
  exists evs,
    trace w' = trace w ++ evs /\
    (clean evs ->
     evs = [ok CConfig; ok (CTorchLoad (os_path_join model_dir "model_info.pth"))]) /\
    loaded_paths evs `prefix_of`
      [os_path_join model_dir "model_info.pth"; os_path_join model_dir "vae_model.pth"].
Proof.
  intros H. unfold setup in H.
  raised_call H. raised_call H.
  do 10 raised_eval H.
  do 7 raised_call H.
  inversion H.
Qed.

Lemma loop_body_raise l its w e w' :
  loop_body l (table_of its) w = (Raise e, w') ->
  exists tail, trace w' = trace w ++ tail /\ aborted_iteration l e tail.
Proof.
  intros H. unfold loop_body, decode_one in H.
  apply bind_inv in H as [(? & Hc & _)|(x & w0 & Hc & H)]; [inversion Hc|].
  unfold get_ext in Hc. inversion Hc; subst x w0; clear Hc. cbv beta zeta in H.
  apply bind_inv in H as [(? & Hc & Heq)|(smiles & w1 & Hc & H)];
    apply call_inv in Hc as (_ & _ & _ & Ht1).
  { inversion Heq; subst. eexists. split; [exact Ht1|]. left. eauto. }
  cbv beta zeta in H.
  apply bind_inv in H as [(? & Hc & Heq)|(mol & w2 & Hc & H)];
    apply call_inv in Hc as (Hx & _ & _ & Ht2); [inversion Hx|].
  inversion Hx; subst mol; clear Hx. cbv beta zeta in H.
  apply bind_inv in H as [(? & Hc & Heq)|(q & w3 & Hc & H)];
    apply call_inv in Hc as (_ & _ & _ & Ht3).
  { inversion Heq; subst. eexists. split; [chain|]. right. eauto. }
  exfalso. cbv beta zeta in H. unfold append_to, bind, eval, ret in H.
  rewrite dict_append_table in H. simpl in H. discriminate.
Qed.

Lemma loop_raise l n : forall its0 w e w',
  for_range n (loop_body l) (table_of its0) w = (Raise e, w') ->
  exists its tail,
    (length its < n)%nat /\
    trace w' = trace w ++ loop_events l its ++ tail /\
    aborted_iteration l e tail.
Proof.
  induction n as [|n IH]; intros its0 w e w' H; simpl in H; [inversion H|].
  apply bind_inv in H as [(e0 & Hb & Heq)|(data & w1 & Hb & H)].
  - inversion Heq; subst e0.
    apply loop_body_raise in Hb as (tail & Ht & Htail).
    exists [], tail. split; [simpl; lia|]. split; [exact Ht|exact Htail].
  - apply loop_body_ok in Hb as (it & -> & _ & _ & _ & _ & _ & Ht).
    apply IH in H as (its & tail & Hlen & Ht' & Htail).
    exists (it :: its), tail. split; [simpl; lia|]. split; [|exact Htail].
    rewrite Ht', Ht. unfold loop_events. simpl. by rewrite <- !app_assoc.
Qed.

Lemma observed_loop_events l its :
  loaded_paths (loop_events l its) = [] /\
  parsed_strings (loop_events l its) = it_smiles <$> its /\
  scored_strings (loop_events l its) = it_smiles <$> its.
Proof.
  unfold loop_events. induction its as [|it its (IH1 & IH2 & IH3)]; [done|].
  change (concat (iter_events l <$> it :: its))
    with (iter_events l it ++ concat (iter_events l <$> its)).
  unfold loaded_paths, parsed_strings, scored_strings in *.
  rewrite !omap_app, IH1, IH2, IH3. done.
Qed.

Lemma observed_setup_calls evs :
  Forall (fun ev => is_setup_call (ev_call ev) = true) evs ->
  parsed_strings evs = [] /\ scored_strings evs = [] /\
  count is_decode evs = 0%nat.
Proof.
  induction 1 as [|ev evs Hev _ (IH1 & IH2 & IH3)]; [done|].
  unfold parsed_strings, scored_strings, count in *.
  destruct ev as [c r]. simpl in *.
  destruct c; try discriminate; simpl; done.
Qed.

Lemma observed_aborted_iteration l e tail :
  aborted_iteration l e tail ->
  loaded_paths tail = [] /\
  scored_strings tail = parsed_strings tail /\
  count is_decode tail = 1%nat /\
  exists pre c, tail = pre ++ [mkEvent c (Some e)] /\ clean pre /\
                (is_decode c = true \/ exists s, c = CComputeProperty s).
Proof.
  intros [(seen & ->)|(seen & smiles & ->)].
  - repeat split. eexists [], _. repeat split; [constructor|by left].
  - repeat split.
    eexists [_; _], _. split; [reflexivity|].
    split; [repeat constructor|right; eauto].
Qed.

(** Where a run that raises ended: in the setup, in an iteration of the
    loop, or in the write. *)
Lemma generate_raise_cases num_molecules model_dir output_path w e w' :
  generate num_molecules model_dir output_path w = (Raise e, w') ->
  files w' = files w /\ stdout w' = stdout w /\
  exists evs,
    trace w' = trace w ++ evs /\
    ((Forall (fun ev => is_setup_call (ev_call ev) = true) evs /\
      propagated evs (@Raise _ Data e) /\
      (clean evs ->
       evs = [ok CConfig; ok (CTorchLoad (os_path_join model_dir "model_info.pth"))]) /\
      loaded_paths evs `prefix_of`
        [os_path_join model_dir "model_info.pth";
         os_path_join model_dir "vae_model.pth"]) \/
     (exists l w1 its tail,
        setup model_dir w = (Ok l, w1) /\
        evs = setup_events model_dir l ++ loop_events l its ++ tail /\
        (length its < Z.to_nat num_molecules)%nat /\
        aborted_iteration l e tail) \/
     (exists l w1 its,
        setup model_dir w = (Ok l, w1) /\
        evs = setup_events model_dir l ++ loop_events l its
              ++ [mkEvent (CToCsv (frame_of its) output_path) (Some e)] /\
        length its = Z.to_nat num_molecules)).
Proof.
  intros H. apply generate_run in H as [(e0 & He & Hs)|(l & w1 & Hs & H)].
  - inversion He; subst e0.
    destruct (steps_setup _ _ _ _ Hs) as (Hf & Hso & evs & Ht & Hall & Hp).
    destruct (setup_raise_detail _ _ _ _ Hs) as (evs' & Ht' & Hclean & Hpaths).
    rewrite Ht in Ht'. apply app_inv_head in Ht'. subst evs'.
    split; [done|]. split; [done|]. exists evs. split; [done|]. left.
    split; [done|]. split; [by apply (propagated_retype (A:=Locals))|]. done.
  - apply setup_ok in Hs as Hs'. destruct Hs' as (Hf0 & Hso0 & Ht0 & _).
    destruct H as [(e0 & He & Hl)|(its & w2 & Hl & Hlen & _ & _ & Hf2 & Hso2 & Ht2 & Hp)].
    + inversion He; subst e0.
      destruct (steps_decode_loop _ _ _ _ _ Hl) as (Hf & Hso & _).
      unfold decode_loop in Hl. change empty_table with (table_of []) in Hl.
      apply loop_raise in Hl as (its & tail & Hlen & Ht & Htail).
      split; [congruence|]. split; [congruence|].
      eexists. split; [rewrite Ht, Ht0, <- app_assoc; reflexivity|].
      right. left. exists l, w1, its, tail. done.
    + apply persist_raise in Hp as (_ & _ & Hf & Hso & Ht).
      split; [congruence|]. split; [congruence|].
      eexists. split; [rewrite Ht, Ht2, Ht0, <- !app_assoc; reflexivity|].
      right. right. exists l, w1, its. done.
Qed.

End EndingFacts.

(** ** Damaged metadata *)

Section MetadataProperties.
Context {E : Env}.

(** X1. When the metadata checkpoint is a dict that lacks one of the seven
    entries, the run ends with the KeyError of the first entry missing in
    reading order, after [Config()] and the one [torch.load]: no network is
    built, nothing is decoded, written or printed. *)
Theorem missing_metadata_key num_molecules model_dir output_path w config x1
    (entries : gmap Key (PyVal Obj)) x2 present key rest :
  Config_new (ext w) = (Ok config, x1) ->
  torch_load (os_path_join model_dir "model_info.pth") x1 = (Ok (PDict entries), x2) ->
  metadata_keys = present ++ key :: rest ->
  Forall (fun k => is_Some (entries !! KStr k)) present ->
  entries !! KStr key = None ->
  generate num_molecules model_dir output_path w
  = (Raise (KeyError (PStr key)),
     mkWorld x2 (files w) (stdout w)
       (trace w ++ [ok CConfig; ok (CTorchLoad (os_path_join model_dir "model_info.pth"))])).
Proof.
  intros Hcfg Hload Hkeys Hall Hnone.
  eapply generate_metadata_error; [exact Hcfg|exact Hload|].
  by eapply read_metadata_missing_key.
Qed.

(** X2. The metadata is checked in evaluation order: when [len(vocab)]
    raises, or returns and [max_length - 1] raises, the run ends with that
    exception after [Config()] and the one [torch.load], whatever
    [char_to_idx[pad_token]] would have done. *)
Theorem metadata_checked_in_order num_molecules model_dir output_path w config x1
    model_info x2 vocab char_to_idx idx_to_char start_token end_token pad_token
    max_length e :
  Config_new (ext w) = (Ok config, x1) ->
  torch_load (os_path_join model_dir "model_info.pth") x1 = (Ok model_info, x2) ->
  py_getitem model_info (PStr "vocab") = Ok vocab ->
  py_getitem model_info (PStr "char_to_idx") = Ok char_to_idx ->
  py_getitem model_info (PStr "idx_to_char") = Ok idx_to_char ->
  py_getitem model_info (PStr "start_token") = Ok start_token ->
  py_getitem model_info (PStr "end_token") = Ok end_token ->
  py_getitem model_info (PStr "pad_token") = Ok pad_token ->
  py_getitem model_info (PStr "max_length") = Ok max_length ->
  py_len vocab = Raise e \/
  (is_ok (py_len vocab) = true /\ py_sub max_length 1 = Raise e) ->
  generate num_molecules model_dir output_path w
  = (Raise e,
     mkWorld x2 (files w) (stdout w)
       (trace w ++ [ok CConfig; ok (CTorchLoad (os_path_join model_dir "model_info.pth"))])).
Proof.
  intros Hcfg Hload Hv Hc2i Hi2c Hst Hen Hpad Hmax Hcase.
  eapply generate_metadata_error; [exact Hcfg|exact Hload|].
  unfold read_metadata. rewrite Hv, Hc2i, Hi2c, Hst, Hen, Hpad, Hmax. simpl.
  destruct Hcase as [Hlen|[Hlen Hsub]].
  - by rewrite Hlen.
  - destruct (py_len vocab); [|discriminate]. simpl. by rewrite Hsub.
Qed.

(** X10. The driver's own Python operations can fail only while it reads
    the metadata: a run that raises although no collaborator call raised
    has made exactly two calls, [Config()] and the first [torch.load].  The
    appends to the three lists and the construction of the frame never
    raise. *)
Theorem driver_errors_only_from_metadata num_molecules model_dir output_path w e w' evs :
  generate num_molecules model_dir output_path w = (Raise e, w') ->
  trace w' = trace w ++ evs ->
  clean evs ->
  evs = [ok CConfig; ok (CTorchLoad (os_path_join model_dir "model_info.pth"))].
Proof.
  intros H Ht Hclean.
  apply generate_raise_cases in H as (_ & _ & evs' & Ht' & Hcase).
  rewrite Ht in Ht'. apply app_inv_head in Ht'. subst evs'.
  destruct Hcase as [(_ & _ & Hmeta & _)|[(l & w1 & its & tail & _ & -> & _ & Htail)
                                         |(l & w1 & its & _ & -> & _)]].
  - by apply Hmeta.
  - exfalso. apply observed_aborted_iteration in Htail
      as (_ & _ & _ & pre & c & -> & _ & _).
    rewrite !app_assoc in Hclean. apply Forall_app in Hclean as [_ Hc].
    inversion Hc; subst. discriminate.
  - exfalso. rewrite !app_assoc in Hclean. apply Forall_app in Hclean as [_ Hc].
    inversion Hc; subst. discriminate.
Qed.

End MetadataProperties.

(** ** What a run reads, writes and prints *)

Section EffectProperties.
Context {E : Env}.

(** X3. Whatever its outcome, a run gives [torch.load] no path other than
    [model_dir/model_info.pth] and then [model_dir/vae_model.pth], each at
    most once and in that order; a run that completes has loaded both. *)
Theorem checkpoint_files_read num_molecules model_dir output_path w r w' evs :
  generate num_molecules model_dir output_path w = (r, w') ->
  trace w' = trace w ++ evs ->
  loaded_paths evs `prefix_of`
    [os_path_join model_dir "model_info.pth"; os_path_join model_dir "vae_model.pth"] /\
  (is_ok r = true ->
   loaded_paths evs =
     [os_path_join model_dir "model_info.pth"; os_path_join model_dir "vae_model.pth"]).
Proof.
  intros H Ht.
  assert (forall l its tail,
            loaded_paths tail = [] ->
            loaded_paths (setup_events model_dir l ++ loop_events l its ++ tail)
            = [os_path_join model_dir "model_info.pth";
               os_path_join model_dir "vae_model.pth"]) as Hpast.
  { intros l its tail Htail. unfold loaded_paths in *. rewrite !omap_app, Htail.
    destruct (observed_loop_events l its) as (Hl & _). unfold loaded_paths in Hl.
    rewrite Hl. reflexivity. }
  destruct r as [data|e].
  - apply generate_ok in H as (l & w1 & its & _ & _ & _ & _ & _ & _ & _ & Ht').
    rewrite Ht in Ht'. apply app_inv_head in Ht'. subst evs.
    rewrite Hpast by reflexivity. done.
  - apply generate_raise_cases in H as (_ & _ & evs' & Ht' & Hcase).
    rewrite Ht in Ht'. apply app_inv_head in Ht'. subst evs'.
    split; [|discriminate].
    destruct Hcase as [(_ & _ & _ & Hpre)|[(l & w1 & its & tail & _ & -> & _ & Htail)
                                          |(l & w1 & its & _ & -> & _)]].
    + exact Hpre.
    + apply observed_aborted_iteration in Htail as (Hnone & _).
      by rewrite Hpast.
    + by rewrite Hpast.
Qed.

(** X4. The driver writes to the output path and nowhere else: whatever
    the outcome of a run, every other file is as it was. *)
Theorem only_output_file_written num_molecules model_dir output_path w path :
  path <> output_path ->
  files (snd (generate num_molecules model_dir output_path w)) !! path
  = files w !! path.
Proof.
  intros Hne.
  destruct (generate num_molecules model_dir output_path w) as [[data|e] w'] eqn:H; simpl.
  - apply generate_ok in H as (l & w1 & its & _ & _ & _ & _ & _ & Hf & _).
    rewrite Hf. by apply lookup_insert_ne.
  - apply generate_raise_cases in H as (Hf & _). by rewrite Hf.
Qed.

(** X5. The status line is printed exactly when the run completes: a
    completed run adds the one line naming the output path, a run that
    raises prints nothing. *)
Theorem status_line_iff_completed num_molecules model_dir output_path w :
  stdout (snd (generate num_molecules model_dir output_path w))
  = stdout w ++
    (if is_ok (fst (generate num_molecules model_dir output_path w))
     then ["Generated molecules saved to " +:+ output_path]
     else []).
Proof.
  destruct (generate num_molecules model_dir output_path w) as [[data|e] w'] eqn:H; simpl.
  - by apply generate_ok in H as (l & w1 & its & _ & _ & _ & _ & _ & _ & Hso & _).
  - apply generate_raise_cases in H as (_ & Hso & _). by rewrite Hso, app_nil_r.
Qed.

(** X6. The write comes after all the work: when the call that raised is
    [to_csv], all N decoder calls had been made and had returned, the frame
    had its N rows, and the run ends with that exception, returning no
    table, printing nothing and leaving every file other than the one at
    the output path as it was. *)
Theorem failed_write_comes_last num_molecules model_dir output_path w r w' pre ev e :
  generate num_molecules model_dir output_path w = (r, w') ->
  trace w' = trace w ++ pre ++ [ev] ->
  is_to_csv (ev_call ev) = true ->
  ev_raised ev = Some e ->
  r = Raise e /\
  (exists df, ev_call ev = CToCsv df output_path /\
              length (rows df) = Z.to_nat num_molecules) /\
  count is_decode pre = Z.to_nat num_molecules /\
  clean pre /\
  stdout w' = stdout w /\
  forall path, path <> output_path -> files w' !! path = files w !! path.
Proof.
  intros H Ht Hcsv Hraised.
  destruct r as [data|e'].
  - exfalso.
    apply generate_ok in H as (l & w1 & its & _ & _ & _ & _ & _ & _ & _ & Ht').
    rewrite Ht in Ht'. apply app_inv_head in Ht'.
    rewrite !app_assoc in Ht'. apply app_inj_tail in Ht' as [_ ->]. discriminate.
  - apply generate_raise_cases in H as (Hf & Hso & evs' & Ht' & Hcase).
    rewrite Ht in Ht'. apply app_inv_head in Ht'. subst evs'.
    destruct Hcase as [(Hall & _)|[(l & w1 & its & tail & _ & Hevs & _ & Htail)
                                  |(l & w1 & its & _ & Hevs & Hlen)]].
    + exfalso. apply Forall_app in Hall as [_ Hall]. inversion Hall; subst.
      destruct (ev_call ev); discriminate.
    + exfalso. apply observed_aborted_iteration in Htail
        as (_ & _ & _ & pre' & c & -> & _ & Hc).
      rewrite !app_assoc in Hevs. apply app_inj_tail in Hevs as [_ ->].
      simpl in Hcsv. destruct Hc as [Hc|[s ->]]; [|discriminate].
      destruct c; discriminate.
    + rewrite !app_assoc in Hevs. apply app_inj_tail in Hevs as [-> ->].
      simpl in Hraised. inversion Hraised; subst e'.
      split; [reflexivity|]. split.
      { eexists. split; [reflexivity|]. simpl. by rewrite length_fmap. }
      split.
      { rewrite count_app. destruct (count_loop_events l its) as (-> & _).
        simpl. lia. }
      split; [apply clean_app; [apply clean_setup_events|apply clean_loop_events]|].
      split; [done|]. intros path _. by rewrite Hf.
Qed.

(** X7. Every decoded string goes through the parser and then through the
    scorer, parseable or not: in any run the strings given to the scorer
    are those given to the parser, in the same order, and in a run that
    completes they are the N entries of the returned Generated_SMILES
    column. *)
Theorem parser_and_scorer_see_every_string num_molecules model_dir output_path
    w r w' evs :
  generate num_molecules model_dir output_path w = (r, w') ->
  trace w' = trace w ++ evs ->
  scored_strings evs = parsed_strings evs /\
  (forall data, r = Ok data ->
     data !! 0%nat = Some ("Generated_SMILES", CStr <$> parsed_strings evs) /\
     length (parsed_strings evs) = Z.to_nat num_molecules).
Proof.
  intros H Ht.
  assert (forall l its tail,
            scored_strings tail = parsed_strings tail ->
            scored_strings (setup_events model_dir l ++ loop_events l its ++ tail)
            = parsed_strings (setup_events model_dir l ++ loop_events l its ++ tail))
    as Hpast.
  { intros l its tail Htail. unfold scored_strings, parsed_strings in *.
    rewrite !omap_app, Htail.
    destruct (observed_loop_events l its) as (_ & Hp & Hs).
    unfold scored_strings, parsed_strings in Hp, Hs. rewrite Hp, Hs. reflexivity. }
  destruct r as [data|e].
  - apply generate_ok in H as (l & w1 & its & _ & Hlen & -> & _ & _ & _ & _ & Ht').
    rewrite Ht in Ht'. apply app_inv_head in Ht'. subst evs.
    split; [by apply Hpast|].
    intros data Hd. inversion Hd; subst data; clear Hd.
    assert (parsed_strings (setup_events model_dir l ++ loop_events l its
                            ++ [ok (CToCsv (frame_of its) output_path)])
            = it_smiles <$> its) as ->.
    { unfold parsed_strings. rewrite !omap_app.
      destruct (observed_loop_events l its) as (_ & Hp & _).
      unfold parsed_strings in Hp. rewrite Hp. simpl. by rewrite app_nil_r. }
    split; [|by rewrite length_fmap].
    rewrite <- list_fmap_compose. reflexivity.
  - apply generate_raise_cases in H as (_ & _ & evs' & Ht' & Hcase).
    rewrite Ht in Ht'. apply app_inv_head in Ht'. subst evs'.
    split; [|discriminate].
    destruct Hcase as [(Hall & _)|[(l & w1 & its & tail & _ & -> & _ & Htail)
                                  |(l & w1 & its & _ & -> & _)]].
    + apply observed_setup_calls in Hall as (-> & -> & _). reflexivity.
    + apply observed_aborted_iteration in Htail as (_ & Heq & _). by apply Hpast.
    + by apply Hpast.
Qed.

(** X11. Inside the loop only the decoder and the scorer can end a run:
    when the call that raised belongs to the loop, it is a decoder call or a
    scorer call, never the parser; fewer than N iterations had completed,
    each with its three calls, and no further decoder call was made. *)
Theorem loop_aborts_on_decoder_or_scorer num_molecules model_dir output_path
    w e w' pre ev :
  generate num_molecules model_dir output_path w = (Raise e, w') ->
  trace w' = trace w ++ pre ++ [ev] ->
  is_loop_call (ev_call ev) = true ->
  ev_raised ev = Some e /\
  (is_decode (ev_call ev) = true \/ exists smiles, ev_call ev = CComputeProperty smiles) /\
  exists l w1 its tail,
    setup model_dir w = (Ok l, w1) /\
    pre ++ [ev] = setup_events model_dir l ++ loop_events l its ++ tail /\
    aborted_iteration l e tail /\
    (length its < Z.to_nat num_molecules)%nat /\
    count is_decode (pre ++ [ev]) = S (length its).
Proof.
  intros H Ht Hloop.
  apply generate_raise_cases in H as (_ & _ & evs' & Ht' & Hcase).
  rewrite Ht in Ht'. apply app_inv_head in Ht'. subst evs'.
  destruct Hcase as [(Hall & _)|[(l & w1 & its & tail & Hs & Hevs & Hlen & Htail)
                                |(l & w1 & its & _ & Hevs & _)]].
  - exfalso. apply Forall_app in Hall as [_ Hall]. inversion Hall; subst.
    destruct (ev_call ev); discriminate.
  - pose proof Htail as Htail'.
    apply observed_aborted_iteration in Htail'
      as (_ & _ & Hcount & pre' & c & Heq & _ & Hc).
    pose proof Hevs as Hevs'. rewrite Heq, !app_assoc in Hevs'.
    apply app_inj_tail in Hevs' as [_ ->]. simpl.
    split; [reflexivity|]. split; [exact Hc|].
    exists l, w1, its, tail. repeat split; try done.
    rewrite Hevs, !count_app, Hcount.
    destruct (count_loop_events l its) as (-> & _). simpl. lia.
  - exfalso. rewrite !app_assoc in Hevs. apply app_inj_tail in Hevs as [_ ->].
    discriminate.
Qed.

End EffectProperties.

(** ** One more molecule, and the spelling of the model directory *)

Section CompositionProperties.
Context {E : Env}.

Lemma bind_ret_r {A} (c : M A) w : bind c ret w = c w.
Proof. unfold bind, ret. by destruct (c w) as [[a|e] w1]. Qed.

Lemma for_range_snoc {A} (body : A -> M A) n : forall acc w,
  for_range (n + 1) body acc w = bind (for_range n body acc) body w.
Proof.
  induction n as [|n IH]; intros acc w; simpl.
  - by rewrite bind_ret_r.
  - unfold bind. destruct (body acc w) as [[a|e] w1]; [|reflexivity].
    rewrite IH. reflexivity.
Qed.

(** X8. Asking for one more molecule only appends a row.  From the same
    starting state and with an output path that can always be opened, if
    the run for N + 1 completes then so does the run for N, and each column
    returned for N + 1 is the column returned for N with one more entry at
    its end. *)
Theorem one_more_molecule_appends (num_molecules : Z) model_dir output_path w data' w'' :
  0 <= num_molecules ->
  (forall x, open_for_write output_path x = None) ->
  generate (num_molecules + 1) model_dir output_path w = (Ok data', w'') ->
  exists data w',
    generate num_molecules model_dir output_path w = (Ok data, w') /\
    Forall2 (fun kc kc' => fst kc' = fst kc /\ exists cell, snd kc' = snd kc ++ [cell])
            data data'.
Proof.
  intros HN Hopen H.
  apply generate_run in H as [(e & He & _)|(l & w1 & Hs & H)]; [discriminate|].
  destruct H as [(e & He & _)|(its' & w2' & Hl & _ & _ & _ & _ & _ & _ & Hp)];
    [discriminate|].
  apply persist_ok in Hp as (-> & _).
  unfold decode_loop in Hl. change empty_table with (table_of []) in Hl.
  replace (Z.to_nat (num_molecules + 1)) with (Z.to_nat num_molecules + 1)%nat in Hl
    by lia.
  rewrite for_range_snoc in Hl.
  apply bind_ok_inv in Hl as (data & w2 & Hn & Hb).
  pose proof Hn as Hn'.
  apply loop_ok in Hn' as (its & _ & -> & _). simpl in Hb, Hn.
  apply loop_body_ok in Hb as (it & Hdata & _).
  exists (table_of its).
  assert (exists w', generate num_molecules model_dir output_path w
                     = (Ok (table_of its), w')) as [w' Hrun].
  { rewrite generate_phases. unfold bind at 1. rewrite Hs.
    unfold bind at 1.
    assert (decode_loop num_molecules l w1 = (Ok (table_of its), w2)) as -> by exact Hn.
    unfold persist. rewrite DataFrame_of_table.
    unfold bind, eval, to_csv, print, ret. rewrite Hopen. eauto. }
  exists w'. split; [exact Hrun|].
  rewrite Hdata. unfold table_of. rewrite !fmap_app. simpl.
  repeat constructor; simpl; eauto.
Qed.

Lemma ends_with_slash_snoc d : ends_with_slash (d +:+ "/") = true.
Proof.
  induction d as [|c d IH]; [reflexivity|].
  simpl. destruct d; [reflexivity|exact IH].
Qed.

Lemma append_assoc (a b c : string) : (a +:+ b) +:+ c = a +:+ (b +:+ c).
Proof.
  induction a as [|x a IH]; [reflexivity|].
  change (String x ((a +:+ b) +:+ c) = String x (a +:+ (b +:+ c))).
  by rewrite IH.
Qed.

Lemma os_path_join_slash_appended d b :
  d <> "" -> ends_with_slash d = false ->
  os_path_join (d +:+ "/") b = os_path_join d b.
Proof.
  intros Hne Hslash. unfold os_path_join.
  destruct (starts_with_slash b); [reflexivity|].
  rewrite ends_with_slash_snoc, Hslash.
  destruct (decide (d = "")) as [?|_]; [done|].
  destruct (decide (d +:+ "/" = "")) as [Hempty|_].
  - destruct d; discriminate.
  - apply append_assoc.
Qed.

(** X9. A trailing slash on the model directory changes nothing: for a
    non-empty directory name that does not end in a slash, the run with the
    slash appended is the same run, reading the same two files. *)
Theorem trailing_slash_in_model_dir num_molecules model_dir output_path w :
  model_dir <> "" -> ends_with_slash model_dir = false ->
  generate num_molecules (model_dir +:+ "/") output_path w
  = generate num_molecules model_dir output_path w.
Proof.
  intros Hne Hslash. unfold generate.
  by rewrite !os_path_join_slash_appended.
Qed.

End CompositionProperties.

(** ** The further properties on the small instances *)

Lemma clean_forallb {E : Env} (evs : list Event) :
  forallb no_raise evs = true -> clean evs.
Proof.
  unfold clean, no_raise. induction evs as [|ev evs IH]; simpl; [constructor|].
  intros H. apply andb_prop in H as [Hev Hevs].
  constructor; [by destruct (ev_raised ev)|by apply IH].
Qed.

Lemma missing_metadata_key_witness :
  fst (generate (E:=Cases.env_no_end_token) 2 "ckpt" "out.csv"
         (Cases.start Cases.env_no_end_token (0%nat, 0)))
  = Raise (KeyError (PStr "end_token")).
Proof.
  assert (Forall (fun k => is_Some (Cases.info_no_end_token !! KStr k))
                 ["vocab"; "char_to_idx"; "idx_to_char"; "start_token"]) as Hall.
  { repeat (constructor;
              [apply (bool_decide_unpack (is_Some _)); vm_compute; exact I|]).
    constructor. }
  assert (Cases.info_no_end_token !! KStr "end_token" = None) as Hnone
    by (vm_compute; reflexivity).
  rewrite (missing_metadata_key (E:=Cases.env_no_end_token) 2 "ckpt" "out.csv"
             (Cases.start Cases.env_no_end_token (0%nat, 0))
             (mkConfig 64 8 tt) (0%nat, 0) Cases.info_no_end_token (0%nat, 0)
             ["vocab"; "char_to_idx"; "idx_to_char"; "start_token"] "end_token"
             ["pad_token"; "max_length"] eq_refl eq_refl eq_refl Hall Hnone).
  reflexivity.
Defined.

Lemma metadata_checked_in_order_witness :
  fst (generate (E:=Cases.env_str_max_length) 2 "ckpt" "out.csv"
         (Cases.start Cases.env_str_max_length (0%nat, 0)))
  = Raise (TypeError "unsupported operand type(s) for -").
Proof.
  rewrite (metadata_checked_in_order (E:=Cases.env_str_max_length) 2 "ckpt" "out.csv"
             (Cases.start Cases.env_str_max_length (0%nat, 0))
             (mkConfig 64 8 tt) (0%nat, 0) Cases.info_str_max_length (0%nat, 0)
             Toy.toy_vocab (PDict Toy.toy_mapping) Toy.toy_idx_to_char
             (PStr "<") (PStr ">") (PStr "x") (PStr "10")
             (TypeError "unsupported operand type(s) for -"));
    [reflexivity|reflexivity|reflexivity|vm_compute; reflexivity ..|].
  right. split; reflexivity.
Defined.

Lemma checkpoint_files_read_witness :
  exists (data : @Data Toy.env) (w' : @World Toy.env),
    Toy.run 2 = (Ok data, w') /\
    loaded_paths (trace w') = ["ckpt/model_info.pth"; "ckpt/vae_model.pth"].
Proof.
  assert (is_ok (fst (Toy.run 2)) = true) as Hok by (vm_compute; reflexivity).
  destruct (Toy.run 2) as [[data|e] w'] eqn:Hrun; [clear Hok|discriminate].
  destruct (checkpoint_files_read (E:=Toy.env) 2 "ckpt" "out.csv" Toy.w0
              (Ok data) w' (trace w') Hrun eq_refl) as [_ Hboth].
  exists data, w'. split; [reflexivity|]. exact (Hboth eq_refl).
Defined.

Lemma only_output_file_written_witness :
  "other.csv" <> "out.csv" /\ files (snd (Toy.run 2)) !! "other.csv" = None.
Proof.
  assert ("other.csv" <> "out.csv") as Hne by discriminate.
  split; [exact Hne|].
  exact (only_output_file_written (E:=Toy.env) 2 "ckpt" "out.csv" Toy.w0 "other.csv" Hne).
Defined.

Lemma failed_write_comes_last_witness :
  exists r (w' : @World Toy.env),
    generate (E:=Toy.env) 2 "ckpt" "" Toy.w0 = (r, w') /\
    is_ok r = false /\ stdout w' = [] /\ files w' !! "other.csv" = None.
Proof.
  assert (match last (trace (snd (generate (E:=Toy.env) 2 "ckpt" "" Toy.w0))) with
          | Some ev => is_to_csv (ev_call ev) && negb (no_raise ev)
          | None => false
          end = true) as Hlast by (vm_compute; reflexivity).
  destruct (generate (E:=Toy.env) 2 "ckpt" "" Toy.w0) as [r w'] eqn:Hrun.
  simpl in Hlast.
  destruct (last (trace w')) as [ev|] eqn:Hev; [|discriminate].
  apply last_Some in Hev as [pre Hpre].
  apply andb_prop in Hlast as [Hcsv Hraised].
  unfold no_raise in Hraised.
  destruct (ev_raised ev) as [e|] eqn:He; [|discriminate].
  destruct (failed_write_comes_last (E:=Toy.env) 2 "ckpt" "" Toy.w0 r w' pre ev e
              Hrun Hpre Hcsv He) as (-> & _ & _ & _ & Hso & Hf).
  exists (Raise e), w'. split; [reflexivity|]. split; [reflexivity|].
  split; [exact Hso|]. by rewrite Hf.
Defined.

Lemma parser_and_scorer_see_every_string_witness :
  exists (data : @Data Toy.env) (w' : @World Toy.env),
    Toy.run 2 = (Ok data, w') /\
    scored_strings (trace w') = parsed_strings (trace w') /\
    length (parsed_strings (trace w')) = 2%nat.
Proof.
  assert (is_ok (fst (Toy.run 2)) = true) as Hok by (vm_compute; reflexivity).
  destruct (Toy.run 2) as [[data|e] w'] eqn:Hrun; [clear Hok|discriminate].
  destruct (parser_and_scorer_see_every_string (E:=Toy.env) 2 "ckpt" "out.csv" Toy.w0
              (Ok data) w' (trace w') Hrun eq_refl) as [Hsame Hdone].
  destruct (Hdone data eq_refl) as [_ Hlen].
  exists data, w'. split; [reflexivity|]. split; [exact Hsame|exact Hlen].
Defined.

Lemma one_more_molecule_appends_witness :
  exists (data' data : @Data Toy.env) (w'' w' : @World Toy.env),
    Toy.run 2 = (Ok data', w'') /\
    Toy.run 1 = (Ok data, w') /\
    Forall2 (fun kc kc' => fst kc' = fst kc /\ exists cell, snd kc' = snd kc ++ [cell])
            data data'.
Proof.
  assert (is_ok (fst (Toy.run 2)) = true) as Hok by (vm_compute; reflexivity).
  destruct (Toy.run 2) as [[data'|e] w''] eqn:Hrun; [clear Hok|discriminate].
  destruct (one_more_molecule_appends (E:=Toy.env) 1 "ckpt" "out.csv" Toy.w0 data' w'')
    as (data & w' & Hone & Hrows); [lia|intros x; reflexivity|exact Hrun|].
  exists data', data, w'', w'. split; [reflexivity|]. split; [exact Hone|exact Hrows].
Defined.

Lemma trailing_slash_in_model_dir_witness :
  "ckpt" <> "" /\
  generate (E:=Toy.env) 2 "ckpt/" "out.csv" Toy.w0 = Toy.run 2.
Proof.
  assert ("ckpt" <> "") as Hne by discriminate.
  split; [exact Hne|].
  exact (trailing_slash_in_model_dir (E:=Toy.env) 2 "ckpt" "out.csv" Toy.w0 Hne eq_refl).
Defined.

Lemma driver_errors_only_from_metadata_witness :
  exists e (w' : @World Toy.env_no_pad),
    generate (E:=Toy.env_no_pad) 2 "ckpt" "out.csv" (Cases.start Toy.env_no_pad (0%nat, 0))
    = (Raise e, w') /\
    trace w' = [ok CConfig; ok (CTorchLoad "ckpt/model_info.pth")].
Proof.
  pose (w := Cases.start Toy.env_no_pad (0%nat, 0)).
  assert (negb (is_ok (fst (generate (E:=Toy.env_no_pad) 2 "ckpt" "out.csv" w)))
          && forallb no_raise (trace (snd (generate (E:=Toy.env_no_pad) 2 "ckpt" "out.csv" w)))
          = true) as Hb by (vm_compute; reflexivity).
  fold w.
  destruct (generate (E:=Toy.env_no_pad) 2 "ckpt" "out.csv" w) as [[data|e] w'] eqn:Hrun;
    [discriminate|].
  simpl in Hb. apply clean_forallb in Hb.
  exists e, w'. split; [reflexivity|].
  exact (driver_errors_only_from_metadata (E:=Toy.env_no_pad) 2 "ckpt" "out.csv" w e w'
           (trace w') Hrun eq_refl Hb).
Defined.

Lemma loop_aborts_on_decoder_or_scorer_witness :
  exists e (w' : @World Cases.env_scorer_fails) pre ev,
    generate (E:=Cases.env_scorer_fails) 3 "ckpt" "out.csv"
      (Cases.start Cases.env_scorer_fails (0%nat, 0)) = (Raise e, w') /\
    trace w' = pre ++ [ev] /\
    ev_raised ev = Some e /\
    (is_decode (ev_call ev) = true \/ exists smiles, ev_call ev = CComputeProperty smiles).
Proof.
  pose (w := Cases.start Cases.env_scorer_fails (0%nat, 0)).
  assert (negb (is_ok (fst (generate (E:=Cases.env_scorer_fails) 3 "ckpt" "out.csv" w)))
          && match last (trace (snd (generate (E:=Cases.env_scorer_fails) 3 "ckpt"
                                       "out.csv" w))) with
             | Some ev => is_loop_call (ev_call ev)
             | None => false
             end = true) as Hb by (vm_compute; reflexivity).
  fold w.
  destruct (generate (E:=Cases.env_scorer_fails) 3 "ckpt" "out.csv" w)
    as [[data|e] w'] eqn:Hrun; [discriminate|].
  simpl in Hb.
  destruct (last (trace w')) as [ev|] eqn:Hev; [|discriminate].
  apply last_Some in Hev as [pre Hpre].
  destruct (loop_aborts_on_decoder_or_scorer (E:=Cases.env_scorer_fails) 3 "ckpt" "out.csv"
              w e w' pre ev Hrun Hpre Hb) as (Hraised & Hwho & _).
  exists e, w', pre, ev. split; [reflexivity|]. split; [exact Hpre|]. split; assumption.
Defined.
